(** * rewards-goblin: the event-to-ledger synchronisation pipeline

    A shallow embedding of
      - [src/utils/aos.ts]: the Ledger Client ([sendAosDryRun],
        [sendAosMessage]) with its retry loop,
      - [src/achievements/achievements.service.ts]: [AchievementsService],
        its state cache, start-up verification and [awardAchievement],
      - [src/rewards/rewards.processor.ts]: [RewardsProcessor],
    followed by the properties the specification states about them.

    Asynchronous functions are modelled in a state-and-writer monad with
    exceptions: a computation takes the machine (the outside world and the
    fields of the service instance) and yields a completion (normal value or
    thrown error), the machine afterwards and the events it emitted.  Every
    [await] is a sequencing point of the monad; one job is followed at a time.

    What is outside the repository (the aoconnect transport, timers, the
    clock, [JSON.parse]) is the [Platform] interface below.  Logger calls do
    not influence control flow or the service state; only the error-level
    lines of the start-up permission check are recorded as events.

    A JavaScript [Map] is a [gmap]; an object used as a dictionary is an
    association list in [Object.entries] order; numbers are integers, with
    [NaN] where [parseInt] can produce it. *)

From stdpp Require Import gmap strings list fin_maps.
From Stdlib Require Import ZArith String Ascii Lia.

Open Scope string_scope.
Open Scope list_scope.
Open Scope Z_scope.

(** ** JavaScript strings and numbers *)

(** [s.includes(sub)] *)
Fixpoint includes (s sub : string) : bool :=
  String.prefix sub s ||
  match s with
  | EmptyString => false
  | String _ s' => includes s' sub
  end.

(** [xs.join(sep)] *)
Definition join (sep : string) (xs : list string) : string := String.concat sep xs.

(** Interpolation of a [string | undefined] value in a template literal. *)
Definition interpolate (o : option string) : string :=
  match o with
  | Some s => s
  | None => "undefined"
  end.

(** A JavaScript number that is either an integer or [NaN] ([None]). *)
Definition number := option Z.

(** [a < b] on numbers: every comparison with [NaN] is false. *)
Definition num_lt (a : Z) (b : number) : bool :=
  match b with
  | Some b => a <? b
  | None => false
  end.

Definition is_white_space (c : ascii) : bool :=
  match nat_of_ascii c with
  | 9%nat | 10%nat | 11%nat | 12%nat | 13%nat | 32%nat => true
  | _ => false
  end.

Fixpoint trim_start (s : string) : string :=
  match s with
  | String c s' => if is_white_space c then trim_start s' else s
  | EmptyString => s
  end.

Definition digit_value (c : ascii) : option Z :=
  let n := Z.of_nat (nat_of_ascii c) in
  if (48 <=? n) && (n <=? 57) then Some (n - 48)
  else if (97 <=? n) && (n <=? 122) then Some (n - 87)
  else if (65 <=? n) && (n <=? 90) then Some (n - 55)
  else None.

(** The longest prefix of digits of the radix, read left to right. *)
Fixpoint parse_digits (radix : Z) (acc : number) (s : string) : number :=
  match s with
  | String c s' =>
      match digit_value c with
      | Some d =>
          if d <? radix
          then parse_digits radix (Some (default 0 acc * radix + d)) s'
          else acc
      | None => acc
      end
  | EmptyString => acc
  end.

(** [parseInt(s)] without a radix argument: leading (ASCII) white space, a
    sign, an optional [0x] prefix; [NaN] when no digit follows.  Integers are
    exact (no rounding to double precision). *)
Definition parseInt (s : string) : number :=
  let s := trim_start s in
  let '(sign, s) :=
    match s with
    | String "-" s' => (-1, s')
    | String "+" s' => (1, s')
    | _ => (1, s)
    end in
  let '(radix, s) :=
    match s with
    | String "0" (String "x" s') => (16, s')
    | String "0" (String "X" s') => (16, s')
    | _ => (10, s)
    end in
  match parse_digits radix None s with
  | Some n => Some (sign * n)
  | None => None
  end.

(** ** Errors and completions *)

Record Error := { err_name : string; message : string }.

(** [new Error(msg)] *)
Definition new_Error (msg : string) : Error :=
  {| err_name := "Error"; message := msg |}.

Definition new_TypeError (msg : string) : Error :=
  {| err_name := "TypeError"; message := msg |}.

(** How an asynchronous call ends.  [OutOfFuel] is the model running out of
    loop fuel; the theorems show that no function of the program ends so. *)
Inductive completion (A : Type) : Type :=
| Normal (a : A)
| Throw (e : Error)
| OutOfFuel.
Arguments Normal {A} a.
Arguments Throw {A} e.
Arguments OutOfFuel {A}.

(** ** The ledger's data model (achievements.service.ts) *)

Record CheeseMint := {
  id : string;
  name : string;
  created_at : Z;
  updated_at : option Z;
  created_by : string;
  description : string;
  points : Z;
  icon : string;
  category : string
}.

Record CheeseMintAward := {
  awarded_by : string;
  awarded_at : Z;
  message_id : string
}.

(** A JavaScript object used as a dictionary: its own enumerable properties
    in [Object.entries] order, with distinct keys. *)
Definition dict (V : Type) : Type := list (string * V).

(** [obj[key]]; [None] is [undefined]. *)
Fixpoint get {V} (obj : dict V) (key : string) : option V :=
  match obj with
  | [] => None
  | (k, v) :: rest => if String.eqb k key then Some v else get rest key
  end.

(** [key in obj], for the object's own properties (what [Object.prototype]
    contributes to every object is left out). *)
Definition has_key {V} (key : string) (obj : dict V) : bool :=
  match get obj key with
  | Some _ => true
  | None => false
  end.

(** [Object.keys(obj)] *)
Definition keys {V} (obj : dict V) : list string := map fst obj.

Definition CheeseMintsById := dict CheeseMint.
Definition CheeseMintsByAddress := dict (dict CheeseMintAward).

Record CheeseMintCollectionACLState := {
  roles : option (dict (dict bool))
}.

(** The sections the code tests for (or dereferences) before use are
    optional: the snapshot is whatever the remote process sent. *)
Record CheeseMintCollectionState := {
  owner : string;
  acl : option CheeseMintCollectionACLState;
  cheese_mints_by_id : option CheeseMintsById;
  cheese_mints_by_address : option CheeseMintsByAddress
}.

Definition ACHIEVEMENT_WUZZY_SEARCHER := "Wuzzy Searcher".
Definition ACHIEVEMENT_WUZZY_VIDEO_SEARCHER := "Wuzzy Video Searcher".
Definition ACHIEVEMENT_WUZZY_IMAGE_SEARCHER := "Wuzzy Image Searcher".
Definition ACHIEVEMENT_WUZZY_ARNS_SEARCHER := "Wuzzy ArNS Searcher".
Definition ACHIEVEMENT_WUZZY_AUDIO_SEARCHER := "Wuzzy Audio Searcher".

Definition REQUIRED_ACHIEVEMENTS : list string :=
  [ ACHIEVEMENT_WUZZY_SEARCHER;
    ACHIEVEMENT_WUZZY_VIDEO_SEARCHER;
    ACHIEVEMENT_WUZZY_IMAGE_SEARCHER;
    ACHIEVEMENT_WUZZY_ARNS_SEARCHER;
    ACHIEVEMENT_WUZZY_AUDIO_SEARCHER ].

(** ** Requests and responses of the transport (utils/aos.ts) *)

Record Tag := { tag_name : string; tag_value : string }.

Record SendAosBaseOptions := {
  processId : string;
  data : option string;
  tags : list Tag
}.

Record DryRunMessage := { Data : option string }.

(** The part of aoconnect's [DryRunResult] the service reads.  [Messages] is
    [None] when the field is missing or is not an array. *)
Record DryRunResult := { Messages : option (list DryRunMessage) }.

(** ** The platform *)

Class Platform := {
  (** the state of everything outside the process: remote ledger, network,
      wall clock *)
  World : Type;
  Signer : Type;
  MessageResult : Type;
  (** aoconnect's [dryrun], [message] and [result]: [inl] is a rejection *)
  aoDryRun : SendAosBaseOptions -> World -> (Error + DryRunResult) * World;
  aoMessage : SendAosBaseOptions -> Signer -> World -> (Error + string) * World;
  aoResult : string -> string -> World -> (Error + MessageResult) * World;
  (** the world once a timer of [ms] milliseconds has fired *)
  setTimeout : Z -> World -> World;
  Date_now : World -> Z;
  (** [new Date(ms).toISOString()] *)
  toISOString : Z -> string;
  (** [JSON.parse] on the ledger's payload, read at the declared type of the
      snapshot; [inl] is the [SyntaxError] of a text that is not JSON *)
  JSON_parse : string -> Error + CheeseMintCollectionState
}.

Section Pipeline.
Context {P : Platform}.

Record SendAosMessageOptions := {
  base :> SendAosBaseOptions;
  signer : Signer
}.

(** What [sendAosDryRun] and [sendAosMessage] resolve to. *)
Record DryRunResponse := { result : DryRunResult }.
Record MessageResponse := { messageId : string; message_result : MessageResult }.

(** ** The service instance and the machine *)

(** The fields of [AchievementsService] ([svc_] where a name is taken). *)
Record AchievementsService := {
  svc_signer : Signer;
  svc_processId : string;
  svc_walletAddress : string;
  achievementIdsByName : gmap string string;
  stateCache : option CheeseMintCollectionState;
  stateCacheTimestamp : Z;
  stateCacheTtlMs : number
}.

Record Machine := {
  world : World;
  service : AchievementsService
}.

(** Observable events.  [DryRunCalled] and [MessageCalled] mark an entry into
    a Ledger Client operation, as a spy on the exported function records it;
    [AoDryRun], [AoMessage] and [AoResult] are the transport round trips with
    their outcome; [AwardCalled] is what a service test double records. *)
Inductive Event : Type :=
| DryRunCalled (opts : SendAosBaseOptions)
| AoDryRun (opts : SendAosBaseOptions) (outcome : Error + DryRunResult)
| MessageCalled (opts : SendAosMessageOptions)
| AoMessage (opts : SendAosMessageOptions) (outcome : Error + string)
| AoResult (message process : string) (outcome : Error + MessageResult)
| Slept (ms : Z)
| LoggedError (line : string)
| AwardCalled (achievementName walletAddress : string).

(** ** The monad of asynchronous code *)

Definition M (A : Type) : Type := Machine -> completion A * Machine * list Event.

Definition ret {A} (a : A) : M A := fun m => (Normal a, m, []).

Definition bind {A B} (c : M A) (k : A -> M B) : M B := fun m =>
  match c m with
  | (Normal a, m1, e1) =>
      match k a m1 with
      | (r, m2, e2) => (r, m2, e1 ++ e2)
      end
  | (Throw e, m1, e1) => (Throw e, m1, e1)
  | (OutOfFuel, m1, e1) => (OutOfFuel, m1, e1)
  end.

#[local] Instance M_ret : MRet M := @ret.
#[local] Instance M_bind : MBind M := fun A B k c => bind c k.

Definition throw {A} (e : Error) : M A := fun m => (Throw e, m, []).

Definition out_of_fuel {A} : M A := fun m => (OutOfFuel, m, []).

(** [try { c } catch (error) { handler error }] *)
Definition try_catch {A} (c : M A) (handler : Error -> M A) : M A := fun m =>
  match c m with
  | (Throw e, m1, e1) =>
      match handler e m1 with
      | (r, m2, e2) => (r, m2, e1 ++ e2)
      end
  | other => other
  end.

Definition emit (ev : Event) : M unit := fun m => (Normal tt, m, [ev]).

Definition this : M AchievementsService := fun m => (Normal (service m), m, []).

(** Assignment to the fields of [this]. *)
Definition update_this (f : AchievementsService -> AchievementsService) : M unit :=
  fun m => (Normal tt, {| world := world m; service := f (service m) |}, []).

(** [Date.now()] *)
Definition now : M Z := fun m => (Normal (Date_now (world m)), m, []).

(** One round trip on the transport: the world moves on, the outcome comes
    back as a value for the enclosing [try]. *)
Definition round_trip {A} (call : World -> (Error + A) * World)
    (ev : Error + A -> Event) : M (Error + A) := fun m =>
  match call (world m) with
  | (outcome, w) =>
      (Normal outcome, {| world := w; service := service m |}, [ev outcome])
  end.

(** [await new Promise((resolve) => setTimeout(resolve, ms))] *)
Definition sleep (ms : Z) : M unit := fun m =>
  (Normal tt, {| world := setTimeout ms (world m); service := service m |}, [Slept ms]).

(** ** The Ledger Client (utils/aos.ts) *)

(** The [while (attempts < retries)] loop of [sendAosDryRun], from the values
    its variables have at the loop head.  [fuel] bounds the number of
    iterations; the budget [retries] is enough of it. *)
Fixpoint sendAosDryRun_loop (fuel : nat) (opts : SendAosBaseOptions)
    (retries attempts : Z) (lastError : option Error) : M DryRunResponse :=
  if attempts <? retries then
    match fuel with
    | O => out_of_fuel
    | S fuel =>
        outcome ← round_trip (aoDryRun opts) (AoDryRun opts);
        match outcome with
        | inr res => mret {| result := res |}
        | inl err =>
            if includes (message err) "500" then
              sleep (2 ^ attempts * 2000);;
              sendAosDryRun_loop fuel opts retries (attempts + 1) (Some err)
            else throw err
        end
    end
  else
    match lastError with
    | Some err => throw err
    | None => throw (new_Error "Unknown error occurred")
    end.

Definition sendAosDryRun (opts : SendAosBaseOptions) (retries : Z) : M DryRunResponse :=
  emit (DryRunCalled opts);;
  sendAosDryRun_loop (Z.to_nat retries) opts retries 0 None.

(** The body of the [try] block of [sendAosMessage]: the message, then the
    fetch of its result; a rejection of either leaves the block. *)
Definition message_then_result (opts : SendAosMessageOptions) : M (Error + MessageResponse) :=
  sent ← round_trip (aoMessage opts (signer opts)) (AoMessage opts);
  match sent with
  | inl err => mret (inl err)
  | inr messageId =>
      fetched ← round_trip (aoResult messageId (processId opts))
                           (AoResult messageId (processId opts));
      match fetched with
      | inl err => mret (inl err)
      | inr res => mret (inr {| messageId := messageId; message_result := res |})
      end
  end.

Fixpoint sendAosMessage_loop (fuel : nat) (opts : SendAosMessageOptions)
    (retries attempts : Z) (lastError : option Error) : M MessageResponse :=
  if attempts <? retries then
    match fuel with
    | O => out_of_fuel
    | S fuel =>
        outcome ← message_then_result opts;
        match outcome with
        | inr response => mret response
        | inl err =>
            if includes (message err) "500" then
              sleep (2 ^ attempts * 2000);;
              sendAosMessage_loop fuel opts retries (attempts + 1) (Some err)
            else throw err
        end
    end
  else
    match lastError with
    | Some err => throw err
    | None => throw (new_Error "Unknown error occurred")
    end.

Definition sendAosMessage (opts : SendAosMessageOptions) (retries : Z) : M MessageResponse :=
  emit (MessageCalled opts);;
  sendAosMessage_loop (Z.to_nat retries) opts retries 0 None.

(** ** AchievementsService (achievements/achievements.service.ts) *)

Definition set_stateCache (cache : option CheeseMintCollectionState)
    (timestamp : Z) (svc : AchievementsService) : AchievementsService :=
  {| svc_signer := svc_signer svc;
     svc_processId := svc_processId svc;
     svc_walletAddress := svc_walletAddress svc;
     achievementIdsByName := achievementIdsByName svc;
     stateCache := cache;
     stateCacheTimestamp := timestamp;
     stateCacheTtlMs := stateCacheTtlMs svc |}.

Definition set_achievementIdsByName (ids : gmap string string)
    (svc : AchievementsService) : AchievementsService :=
  {| svc_signer := svc_signer svc;
     svc_processId := svc_processId svc;
     svc_walletAddress := svc_walletAddress svc;
     achievementIdsByName := ids;
     stateCache := stateCache svc;
     stateCacheTimestamp := stateCacheTimestamp svc;
     stateCacheTtlMs := stateCacheTtlMs svc |}.

(** The instance as the constructor and the field initialisers leave it,
    holding the signer and the wallet address that [onModuleInit] derives
    from the key file before it verifies anything. *)
Definition new_AchievementsService (AO_CHEESE_MINT_PROCESS_ID : string)
    (AO_STATE_CACHE_TTL_MS : option string) (jwkSigner : Signer)
    (jwkAddress : string) : AchievementsService :=
  {| svc_signer := jwkSigner;
     svc_processId := AO_CHEESE_MINT_PROCESS_ID;
     svc_walletAddress := jwkAddress;
     achievementIdsByName := ∅;
     stateCache := None;
     stateCacheTimestamp := 0;
     stateCacheTtlMs := parseInt (default "300000" AO_STATE_CACHE_TTL_MS) |}.

Definition view_state_query (process : string) : SendAosBaseOptions :=
  {| processId := process;
     data := None;
     tags := [ {| tag_name := "Action"; tag_value := "View-State" |} ] |}.

Definition parseProcessInfo (res : DryRunResult) : M CheeseMintCollectionState :=
  try_catch
    match Messages res with
    | None | Some [] => throw (new_Error "No messages in dry run result")
    | Some (first :: _) =>
        match Data first with
        | None => throw (new_Error "No message data in dry run result")
        | Some firstMessageData =>
            if String.eqb firstMessageData ""
            then throw (new_Error "No message data in dry run result")
            else
              match JSON_parse firstMessageData with
              | inl syntaxError => throw syntaxError
              | inr state => mret state
              end
        end
    end
    (fun _ => throw (new_Error "Invalid process info format")).

(** The cache is served when
    [!forceRefresh && this.stateCache && cacheAge < this.stateCacheTtlMs]. *)
Definition getProcessState (forceRefresh : bool) : M CheeseMintCollectionState :=
  now_ ← now;
  svc ← this;
  let cacheAge := now_ - stateCacheTimestamp svc in
  let fetch : M CheeseMintCollectionState :=
    dryRunResponse ← sendAosDryRun (view_state_query (svc_processId svc)) 3;
    info ← parseProcessInfo (result dryRunResponse);
    update_this (set_stateCache (Some info) now_);;
    mret info in
  if forceRefresh then fetch
  else
    match stateCache svc with
    | Some cached =>
        if num_lt cacheAge (stateCacheTtlMs svc) then mret cached else fetch
    | None => fetch
    end.

Definition invalidateStateCache : M unit :=
  update_this (set_stateCache None 0).

(** Truthiness of [permissions[address]]. *)
Definition enabled (permissions : dict bool) (address : string) : bool :=
  match get permissions address with
  | Some true => true
  | _ => false
  end.

Definition verifyAclPermissions (info : CheeseMintCollectionState) : M unit :=
  match acl info with
  | None => throw (new_Error "No ACL found in process info")
  | Some acl_ =>
      match roles acl_ with
      | None => throw (new_Error "No ACL found in process info")
      | Some roles_ =>
          match get roles_ "Award-Cheese-Mint" with
          | None =>
              throw (new_Error "Award-Cheese-Mint permission not configured in ACL")
          | Some awardPermissions =>
              svc ← this;
              if negb (enabled awardPermissions (svc_walletAddress svc)) then
                emit (LoggedError ("Wallet " +:+ svc_walletAddress svc +:+
                                   " is not in Award-Cheese-Mint ACL"));;
                let allowedAddresses :=
                  List.filter (enabled awardPermissions) (keys awardPermissions) in
                emit (LoggedError ("Allowed addresses: " +:+ join ", " allowedAddresses));;
                throw (new_Error
                  "Wallet does not have Award-Cheese-Mint permission in AO process")
              else mret tt
          end
      end
  end.

(** [map.has(key)] *)
Definition Map_has (ids : gmap string string) (key : string) : bool :=
  match ids !! key with
  | Some _ => true
  | None => false
  end.

(** The [for (const [id, mint] of Object.entries(mintsById))] loop. *)
Definition index_by_name (ids : gmap string string) (mintsById : CheeseMintsById)
    : gmap string string :=
  foldl (fun ids entry => <[name (snd entry) := fst entry]> ids) ids mintsById.

Definition loadAchievementIds (info : CheeseMintCollectionState) : M unit :=
  match cheese_mints_by_id info with
  | None => throw (new_Error "No cheese_mints_by_id found in process info")
  | Some mintsById =>
      update_this (fun svc =>
        set_achievementIdsByName (index_by_name (achievementIdsByName svc) mintsById) svc);;
      svc ← this;
      let missingAchievements :=
        List.filter (fun name => negb (Map_has (achievementIdsByName svc) name))
                    REQUIRED_ACHIEVEMENTS in
      if (0 <? List.length missingAchievements)%nat then
        throw (new_Error ("Required achievements not found: " +:+
                          join ", " missingAchievements))
      else mret tt
  end.

Definition verifyInitialization : M unit :=
  try_catch
    (state ← getProcessState false;
     verifyAclPermissions state;;
     loadAchievementIds state)
    (fun err => throw err).

(** [onModuleInit], from the point where the key file has been read. *)
Definition onModuleInit : M unit :=
  try_catch verifyInitialization (fun err => throw err).

(** [undefined] when the name is unknown or its id is the empty string. *)
Definition getAchievementId (achievementName : string) : M (option string) :=
  svc ← this;
  match achievementIdsByName svc !! achievementName with
  | Some achievementId =>
      if String.eqb achievementId "" then mret None else mret (Some achievementId)
  | None => mret None
  end.

Definition hasAchievement (walletAddress achievementId : string) : M bool :=
  state ← getProcessState false;
  match cheese_mints_by_address state with
  | None =>
      throw (new_TypeError ("Cannot read properties of undefined (reading '" +:+
                            walletAddress +:+ "')"))
  | Some byAddress =>
      match get byAddress walletAddress with
      | None => mret false
      | Some awardsByAddress => mret (has_key achievementId awardsByAddress)
      end
  end.

Definition award_message (svc : AchievementsService)
    (achievementId walletAddress : string) : SendAosMessageOptions :=
  {| base :=
       {| processId := svc_processId svc;
          data := None;
          tags := [ {| tag_name := "Action"; tag_value := "Award-Cheese-Mint" |};
                    {| tag_name := "Cheese-Mint-Id"; tag_value := achievementId |};
                    {| tag_name := "Award-To-Address"; tag_value := walletAddress |} ] |};
     signer := svc_signer svc |}.

Definition awardAchievement (achievementName walletAddress : string) : M unit :=
  found ← getAchievementId achievementName;
  match found return M unit with
  | None => mret tt
  | Some achievementId =>
      hasAchieved ← hasAchievement walletAddress achievementId;
      if (hasAchieved : bool) then mret tt
      else
        try_catch
          (svc ← this;
           sendAosMessage (award_message svc achievementId walletAddress) 3;;
           invalidateStateCache)
          (fun err => throw err)
  end.

(** ** RewardsProcessor (rewards/rewards.processor.ts) *)

(** Modelled from the spec: the declaration of [WalletType] in
    [utils/wallet.validator.ts] is not part of the sources at hand; the spec
    names three chain formats. *)
Inductive WalletType : Type := Arweave | EVM | Solana.

(** Modelled from the spec: the result of
    [WalletValidator.validateAndNormalize], whose declaration is not part of
    the sources at hand either, with the fields [process] reads; [type],
    [normalized] and [error] may each be absent. *)
Record ValidationResult := {
  valid : bool;
  type : option WalletType;
  normalized : option string;
  error : option string
}.

Section RewardsProcessor.

(** [Record<string, any>] *)
Variable Metadata : Type.

(** The validator is a pure function of the address. *)
Variable validateAndNormalize : string -> ValidationResult.

(** The injected [AchievementsService]; the processor only calls its
    [awardAchievement]. *)
Variable achievementsService : string -> string -> M unit.

Record RewardEventData := {
  eventType : string;
  walletAddress : string;
  metadata : option Metadata
}.

(** The fields of a bullmq [Job] the processor branches on or copies. *)
Record Job := {
  job_name : string;
  job_data : RewardEventData
}.

Record ProcessResult := {
  success : bool;
  res_eventType : string;
  wallet : string;
  walletType : WalletType;
  processedAt : string;
  res_metadata : option Metadata
}.

(** The record each handler resolves to, with its own [eventType] literal. *)
Definition completed (job : Job) (eventType_ : string) (normalizedWallet : string)
    (walletType_ : WalletType) : M ProcessResult :=
  date ← now;
  mret {| success := true;
          res_eventType := eventType_;
          wallet := normalizedWallet;
          walletType := walletType_;
          processedAt := toISOString date;
          res_metadata := metadata (job_data job) |}.

Definition handleArnsSearch (job : Job) (normalizedWallet : string)
    (walletType_ : WalletType) : M ProcessResult :=
  achievementsService ACHIEVEMENT_WUZZY_SEARCHER normalizedWallet;;
  achievementsService ACHIEVEMENT_WUZZY_ARNS_SEARCHER normalizedWallet;;
  completed job "arns-search" normalizedWallet walletType_.

Definition handleImageSearch (job : Job) (normalizedWallet : string)
    (walletType_ : WalletType) : M ProcessResult :=
  achievementsService ACHIEVEMENT_WUZZY_SEARCHER normalizedWallet;;
  achievementsService ACHIEVEMENT_WUZZY_IMAGE_SEARCHER normalizedWallet;;
  completed job "image-search" normalizedWallet walletType_.

Definition handleAudioSearch (job : Job) (normalizedWallet : string)
    (walletType_ : WalletType) : M ProcessResult :=
  achievementsService ACHIEVEMENT_WUZZY_SEARCHER normalizedWallet;;
  achievementsService ACHIEVEMENT_WUZZY_AUDIO_SEARCHER normalizedWallet;;
  completed job "audio-search" normalizedWallet walletType_.

Definition handleVideoSearch (job : Job) (normalizedWallet : string)
    (walletType_ : WalletType) : M ProcessResult :=
  achievementsService ACHIEVEMENT_WUZZY_SEARCHER normalizedWallet;;
  achievementsService ACHIEVEMENT_WUZZY_VIDEO_SEARCHER normalizedWallet;;
  completed job "video-search" normalizedWallet walletType_.

Definition handleEvent (job : Job) (normalizedWallet : string)
    (walletType_ : WalletType) : M ProcessResult :=
  if String.eqb (job_name job) "arns-search" then
    handleArnsSearch job normalizedWallet walletType_
  else if String.eqb (job_name job) "image-search" then
    handleImageSearch job normalizedWallet walletType_
  else if String.eqb (job_name job) "audio-search" then
    handleAudioSearch job normalizedWallet walletType_
  else if String.eqb (job_name job) "video-search" then
    handleVideoSearch job normalizedWallet walletType_
  else throw (new_Error ("Unknown job type: " +:+ job_name job)).

Definition process (job : Job) : M ProcessResult :=
  try_catch
    (let validation := validateAndNormalize (walletAddress (job_data job)) in
     if negb (valid validation) then
       throw (new_Error ("Wallet validation failed: " +:+ interpolate (error validation)))
     else
       match normalized validation, type validation with
       | Some normalizedWallet, Some walletType_ =>
           if String.eqb normalizedWallet "" then
             throw (new_Error "Validation succeeded but missing normalized data")
           else handleEvent job normalizedWallet walletType_
       | _, _ => throw (new_Error "Validation succeeded but missing normalized data")
       end)
    (fun error_ => throw error_).

End RewardsProcessor.

(** The test double of the end-to-end suite: it records the call and
    resolves. *)
Definition mockAchievementsService (achievementName walletAddress_ : string) : M unit :=
  emit (AwardCalled achievementName walletAddress_).

End Pipeline.

Arguments eventType {Metadata}.
Arguments walletAddress {Metadata}.
Arguments metadata {Metadata}.
Arguments job_name {Metadata}.
Arguments job_data {Metadata}.
Arguments success {Metadata}.
Arguments res_eventType {Metadata}.
Arguments wallet {Metadata}.
Arguments walletType {Metadata}.
Arguments processedAt {Metadata}.
Arguments res_metadata {Metadata}.
Arguments completed {P Metadata}.
Arguments handleArnsSearch {P Metadata}.
Arguments handleImageSearch {P Metadata}.
Arguments handleAudioSearch {P Metadata}.
Arguments handleVideoSearch {P Metadata}.
Arguments handleEvent {P Metadata}.
Arguments process {P Metadata}.

(** ** Reading traces *)

Section Traces.
Context {P : Platform}.

(** The server-error test of both retry loops. *)
Definition retryable (e : Error) : bool := includes (message e) "500".

(** The backoff before the attempt after attempt number [attempt]. *)
Definition backoff (attempt : Z) : Z := 2 ^ attempt * 2000.

Definition sleeps (evs : list Event) : list Z :=
  omap (fun ev => match ev with Slept ms => Some ms | _ => None end) evs.

(** The rejections observed on the transport, in order. *)
Definition observed_errors (evs : list Event) : list Error :=
  omap (fun ev =>
          match ev with
          | AoDryRun _ (inl e) | AoMessage _ (inl e) | AoResult _ _ (inl e) => Some e
          | _ => None
          end) evs.

(** One mark per attempt of a retry loop: each attempt starts with [aoDryRun]
    (dry run) or [aoMessage] (send). *)
Definition attempts (evs : list Event) : list unit :=
  omap (fun ev =>
          match ev with
          | AoDryRun _ _ | AoMessage _ _ => Some tt
          | _ => None
          end) evs.

(** Invocations of [sendAosDryRun]: the remote queries. *)
Definition dry_run_calls (evs : list Event) : list SendAosBaseOptions :=
  omap (fun ev => match ev with DryRunCalled o => Some o | _ => None end) evs.

(** Invocations of [sendAosMessage]: the outbound signed sends. *)
Definition message_calls (evs : list Event) : list SendAosMessageOptions :=
  omap (fun ev => match ev with MessageCalled o => Some o | _ => None end) evs.

(** The signed messages handed to [aoMessage], one per transmission. *)
Definition transmissions (evs : list Event) : list SendAosMessageOptions :=
  omap (fun ev => match ev with AoMessage o _ => Some o | _ => None end) evs.

Definition award_calls (evs : list Event) : list (string * string) :=
  omap (fun ev => match ev with AwardCalled n w => Some (n, w) | _ => None end) evs.

End Traces.

(** ** The common shape of the two retry loops *)

(** What a retry loop throws when it ends without a success. *)
Definition exhausted_error (lastError : option Error) : Error :=
  match lastError with
  | Some err => err
  | None => new_Error "Unknown error occurred"
  end.

Section RetryLoop.
Context {P : Platform} {A : Type}.

(** One pass through the [try] block: [inr] when it returned, [inl] when it
    threw. *)
Variable attempt : M (Error + A).

Fixpoint retry_loop (fuel : nat) (retries attempts_ : Z) (lastError : option Error)
    : M A :=
  if attempts_ <? retries then
    match fuel with
    | O => out_of_fuel
    | S fuel =>
        bind attempt (fun outcome =>
          match outcome with
          | inr response => ret response
          | inl err =>
              if retryable err then
                bind (sleep (backoff attempts_)) (fun _ =>
                  retry_loop fuel retries (attempts_ + 1) (Some err))
              else throw err
          end)
    end
  else
    match lastError with
    | Some err => throw err
    | None => throw (new_Error "Unknown error occurred")
    end.

(** An attempt always comes back with an outcome, leaves the service alone,
    is one attempt on the transport, and shows the error it reports, if any,
    in its last event. *)
Definition well_behaved : Prop :=
  forall m, exists outcome m' evs,
    attempt m = (Normal outcome, m', evs) /\
    service m' = service m /\
    sleeps evs = [] /\
    attempts evs = [tt] /\
    observed_errors evs = match outcome with inl e => [e] | inr _ => [] end /\
    match outcome with
    | inl e => exists pre ev, evs = pre ++ [ev] /\ observed_errors [ev] = [e]
    | inr _ => True
    end /\
    dry_run_calls evs = [] /\
    message_calls evs = [].

(** What holds of a run of the loop entered with [a] attempts made. *)
Record loop_facts (retries a : Z) (lastError : option Error)
    (m : Machine) (r : completion A) (m' : Machine) (evs : list Event) : Prop := {
  lf_fuel : r <> OutOfFuel;
  lf_service : service m' = service m;
  lf_bound : (List.length (attempts evs) <= Z.to_nat (retries - a))%nat;
  lf_sleeps :
    sleeps evs =
    backoff <$> seqZ a (Z.of_nat (List.length (List.filter retryable (observed_errors evs))));
  lf_attempts :
    List.length (attempts evs) =
    (List.length (observed_errors evs) + match r with Normal _ => 1 | _ => 0 end)%nat;
  lf_fatal :
    forall e, In e (observed_errors evs) -> retryable e = false ->
      r = Throw e /\ last (observed_errors evs) = Some e /\
      exists pre ev, evs = pre ++ [ev] /\ observed_errors [ev] = [e];
  lf_thrown :
    forall e, r = Throw e ->
      last (observed_errors evs) = Some e \/
      (observed_errors evs = [] /\ retries <= a /\ e = exhausted_error lastError);
  lf_exhausted :
    forall e, r = Throw e -> Forall (fun e' => retryable e' = true) (observed_errors evs) ->
      List.length (attempts evs) = Z.to_nat (retries - a);
  lf_calls : dry_run_calls evs = [] /\ message_calls evs = []
}.

End RetryLoop.

(** The [try] block of [sendAosDryRun]. *)
Definition dry_run_attempt {P : Platform} (opts : SendAosBaseOptions)
    : M (Error + DryRunResponse) :=
  bind (round_trip (aoDryRun opts) (AoDryRun opts)) (fun outcome =>
    ret match outcome with
        | inl err => inl err
        | inr res => inr {| result := res |}
        end).

(** ** The retry policy, read off a run with a budget of three attempts *)

Definition follows_retry_policy {P : Platform} {A : Type}
    (r : completion A) (evs : list Event) : Prop :=
  (* at most three attempts *)
  (List.length (attempts evs) <= 3)%nat /\
  (* one backoff per server error: 2 s, then 4 s, then 8 s *)
  sleeps evs =
    take (List.length (List.filter retryable (observed_errors evs))) [2000; 4000; 8000] /\
  (* any other failure is thrown at once: its round trip is the last event *)
  (forall e, In e (observed_errors evs) -> retryable e = false ->
     r = Throw e /\ exists pre ev, evs = pre ++ [ev] /\ observed_errors [ev] = [e]) /\
  (* a server error is only thrown after the third attempt *)
  (forall e, r = Throw e -> retryable e = true -> List.length (attempts evs) = 3%nat) /\
  (* the call comes to an end *)
  r <> OutOfFuel.

(** ** How a retry loop ends without a success, for any budget *)


(** ** Reading the cache and the payload *)

(** The cached state [getProcessState] would serve, if any: refresh not
    forced, a state cached, and its age below the TTL. *)
Definition cache_hit {P : Platform} (forceRefresh : bool) (m : Machine)
    : option CheeseMintCollectionState :=
  if forceRefresh then None
  else
    match stateCache (service m) with
    | Some cached =>
        if num_lt (Date_now (world m) - stateCacheTimestamp (service m))
                  (stateCacheTtlMs (service m))
        then Some cached else None
    | None => None
    end.

(** A dry-run result that holds no state snapshot: no messages array, no
    message, no data in the first message, or data that is not JSON. *)
Definition unparsable {P : Platform} (res : DryRunResult) : Prop :=
  Messages res = None \/
  Messages res = Some [] \/
  (exists first rest, Messages res = Some (first :: rest) /\
     (Data first = None \/ Data first = Some "")) \/
  (exists first rest text err, Messages res = Some (first :: rest) /\
     Data first = Some text /\ JSON_parse text = inl err).

(** The first message of the result carries the snapshot [state]. *)
Definition parses_to {P : Platform} (res : DryRunResult)
    (state : CheeseMintCollectionState) : Prop :=
  exists first rest text, Messages res = Some (first :: rest) /\
    Data first = Some text /\ text <> "" /\ JSON_parse text = inr state.

(** ** Reading a snapshot *)

(** The award record of [(walletAddress, achievementId)], if the snapshot
    has one. *)
Definition award_record (state : CheeseMintCollectionState)
    (walletAddress_ achievementId : string) : option CheeseMintAward :=
  match cheese_mints_by_address state with
  | Some byAddress =>
      match get byAddress walletAddress_ with
      | Some awards => get awards achievementId
      | None => None
      end
  | None => None
  end.

(** The address is enabled under the Award-Cheese-Mint role of the ACL. *)
Definition wallet_enabled (info : CheeseMintCollectionState) (address : string) : bool :=
  match acl info with
  | Some acl_ =>
      match roles acl_ with
      | Some roles_ =>
          match get roles_ "Award-Cheese-Mint" with
          | Some permissions => enabled permissions address
          | None => false
          end
      | None => false
      end
  | None => false
  end.

(** The catalog has an achievement of that name. *)
Definition in_catalog (mintsById : CheeseMintsById) (achievementName : string) : bool :=
  existsb (fun entry => String.eqb (name (snd entry)) achievementName) mintsById.

(** Two values of the instance that differ at most in the cache fields. *)
Definition same_but_cache {P : Platform} (a b : AchievementsService) : Prop :=
  svc_signer a = svc_signer b /\
  svc_processId a = svc_processId b /\
  svc_walletAddress a = svc_walletAddress b /\
  achievementIdsByName a = achievementIdsByName b /\
  stateCacheTtlMs a = stateCacheTtlMs b.

(** The two checks [verifyInitialization] makes on the state it fetched. *)
Definition startup_checks {P : Platform} (info : CheeseMintCollectionState) : M unit :=
  bind (verifyAclPermissions info) (fun _ => loadAchievementIds info).

(** The required names that no catalog entry carries. *)
Definition missing_from (mintsById : CheeseMintsById) : list string :=
  List.filter (fun n => negb (in_catalog mintsById n)) REQUIRED_ACHIEVEMENTS.

(** The machine once the name-to-id map is built from the catalog. *)
Definition indexed {P : Platform} (mintsById : CheeseMintsById) (m : Machine) : Machine :=
  {| world := world m;
     service := set_achievementIdsByName (index_by_name ∅ mintsById) (service m) |}.

(** The routing table in the words of the spec: the achievement each event
    type grants after the generic searcher achievement. *)
Definition routing_table : dict string :=
  [ ("arns-search", ACHIEVEMENT_WUZZY_ARNS_SEARCHER);
    ("image-search", ACHIEVEMENT_WUZZY_IMAGE_SEARCHER);
    ("audio-search", ACHIEVEMENT_WUZZY_AUDIO_SEARCHER);
    ("video-search", ACHIEVEMENT_WUZZY_VIDEO_SEARCHER) ].

(** The record a handler resolves to when the machine is [m]. *)
Definition result_record {P : Platform} {Metadata : Type} (job : Job Metadata)
    (normalizedWallet : string) (walletType_ : WalletType) (m : Machine)
    : ProcessResult Metadata :=
  {| success := true;
     res_eventType := job_name job;
     wallet := normalizedWallet;
     walletType := walletType_;
     processedAt := toISOString (Date_now (world m));
     res_metadata := metadata (job_data job) |}.

(** The machine after a timer. *)
Definition slept {P : Platform} (ms : Z) (m : Machine) : Machine :=
  {| world := setTimeout ms (world m); service := service m |}.

(** The machine with another world. *)
Definition with_world {P : Platform} (w : World) (m : Machine) : Machine :=
  {| world := w; service := service m |}.

(** ** A scripted platform, to run the model on concrete inputs *)

(** The transport answers from three scripts, one per endpoint, and refuses
    the connection once a script is used up; time only passes in timers. *)
Record Scripted := {
  dry_runs : list (Error + DryRunResult);
  message_ids : list (Error + string);
  message_results : list (Error + unit);
  clock : Z
}.

Definition connection_refused : Error := new_Error "connect ECONNREFUSED".

Definition scripted_dry_run (w : Scripted) : (Error + DryRunResult) * Scripted :=
  match dry_runs w with
  | [] => (inl connection_refused, w)
  | answer :: rest =>
      (answer, {| dry_runs := rest; message_ids := message_ids w;
                  message_results := message_results w; clock := clock w |})
  end.

Definition scripted_message (w : Scripted) : (Error + string) * Scripted :=
  match message_ids w with
  | [] => (inl connection_refused, w)
  | answer :: rest =>
      (answer, {| dry_runs := dry_runs w; message_ids := rest;
                  message_results := message_results w; clock := clock w |})
  end.

Definition scripted_result (w : Scripted) : (Error + unit) * Scripted :=
  match message_results w with
  | [] => (inl connection_refused, w)
  | answer :: rest =>
      (answer, {| dry_runs := dry_runs w; message_ids := message_ids w;
                  message_results := rest; clock := clock w |})
  end.

Definition scripted_timeout (ms : Z) (w : Scripted) : Scripted :=
  {| dry_runs := dry_runs w; message_ids := message_ids w;
     message_results := message_results w; clock := clock w + ms |}.

(** Test snapshots and the payloads that decode to them. *)
Definition wallet_A := "vLRHFqCw1uHu75xqB4fCDW-QxpkpJxBtFD9g4QYUbfw".
Definition service_wallet := "Jx0n5QWNxZk2Yq1fVtJm3uQhT8sRrXc6b4aEoP7dL9g".

Definition mint (id_ name_ : string) : string * CheeseMint :=
  (id_, {| id := id_; name := name_; created_at := 1; updated_at := None;
           created_by := service_wallet; description := ""; points := 10;
           icon := ""; category := "search" |}).

Definition catalog : CheeseMintsById :=
  [ mint "cm-1" ACHIEVEMENT_WUZZY_SEARCHER;
    mint "cm-2" ACHIEVEMENT_WUZZY_VIDEO_SEARCHER;
    mint "cm-3" ACHIEVEMENT_WUZZY_IMAGE_SEARCHER;
    mint "cm-4" ACHIEVEMENT_WUZZY_ARNS_SEARCHER;
    mint "cm-5" ACHIEVEMENT_WUZZY_AUDIO_SEARCHER ].

Definition acl_of (permissions : dict bool) : option CheeseMintCollectionACLState :=
  Some {| roles := Some [ ("Award-Cheese-Mint", permissions) ] |}.

Definition snapshot (permissions : dict bool) (mints : option CheeseMintsById)
    (awards : CheeseMintsByAddress) : CheeseMintCollectionState :=
  {| owner := service_wallet; acl := acl_of permissions;
     cheese_mints_by_id := mints; cheese_mints_by_address := Some awards |}.

(** Nothing awarded yet. *)
Definition state_before : CheeseMintCollectionState :=
  snapshot [ (service_wallet, true) ] (Some catalog) [].

(** [wallet_A] holds the award for [cm-1]. *)
Definition state_after : CheeseMintCollectionState :=
  snapshot [ (service_wallet, true) ] (Some catalog)
    [ (wallet_A, [ ("cm-1", {| awarded_by := service_wallet; awarded_at := 2;
                               message_id := "msg-1" |}) ]) ].

Definition payloads : dict CheeseMintCollectionState :=
  [ ("before", state_before); ("after", state_after) ].

Definition scripted : Platform := {|
  World := Scripted;
  Signer := unit;
  MessageResult := unit;
  aoDryRun := fun _ => scripted_dry_run;
  aoMessage := fun _ _ => scripted_message;
  aoResult := fun _ _ => scripted_result;
  setTimeout := scripted_timeout;
  Date_now := clock;
  toISOString := fun _ => "2026-01-01T00:00:00.000Z";
  JSON_parse := fun text =>
    match get payloads text with
    | Some state => inr state
    | None => inl {| err_name := "SyntaxError"; message := "Unexpected token" |}
    end
|}.

Definition answer (text : string) : Error + DryRunResult :=
  inr {| Messages := Some [ {| Data := Some text |} ] |}.

Definition server_error : Error := new_Error "Request failed: 500 Internal Server Error".
Definition bad_request : Error := new_Error "Request failed: 400 Bad Request".

Definition script (answers : list (Error + DryRunResult))
    (ids : list (Error + string)) (results : list (Error + unit)) (time : Z)
    : Scripted :=
  {| dry_runs := answers; message_ids := ids; message_results := results;
     clock := time |}.

(** ** Inputs for the examples *)

Definition query : SendAosBaseOptions := view_state_query "cheese-mints".

(** The instance at start-up, and once the catalog is indexed. *)
Definition fresh_service : AchievementsService (P := scripted) :=
  new_AchievementsService (P := scripted) "cheese-mints" None tt service_wallet.

Definition ready_service : AchievementsService (P := scripted) :=
  set_achievementIdsByName (P := scripted) (index_by_name ∅ catalog) fresh_service.

Definition machine (w : Scripted) (svc : AchievementsService (P := scripted))
    : Machine (P := scripted) :=
  {| world := w : World (Platform := scripted); service := svc |}.

(** Two server errors, then the snapshot. *)
Definition flaky : Scripted :=
  script [inl server_error; inl server_error; answer "before"] [] [] 1000.

(** Server errors only. *)
Definition failing : Scripted :=
  script [inl server_error; inl server_error; inl server_error] [] [] 1000.

(** The send fails at [aoMessage], then at [aoResult], then succeeds: the
    message has gone out twice by then. *)
Definition flaky_send : Scripted :=
  script [] [inl server_error; inr "msg-1"; inr "msg-2"] [inl server_error; inr tt] 1000.

(** The ledger records the award between the two reads. *)
Definition awarding : Scripted :=
  script [answer "before"; answer "after"] [inr "msg-1"] [inr tt] 1000.

(** The read succeeds and the send is refused. *)
Definition refusing : Scripted :=
  script [answer "before"] [inl bad_request] [] 1000.

(** The ledger answers with a payload that is not JSON. *)
Definition garbled : Scripted := script [answer "<html>"] [] [] 1000.

Definition award_options : SendAosMessageOptions (P := scripted) :=
  award_message (P := scripted) ready_service "cm-1" wallet_A.

(** What the third attempt of [flaky_send] resolves to. *)
Definition second_response : MessageResponse (P := scripted) :=
  {| messageId := "msg-2"; message_result := tt : MessageResult (Platform := scripted) |}.

(** The machine a first start-up leaves behind. *)
Definition started : Machine (P := scripted) :=
  snd (fst (onModuleInit (P := scripted) (machine awarding fresh_service))).

(** A snapshot without a catalog, and one whose role enables another
    address only. *)
Definition no_catalog : CheeseMintCollectionState :=
  snapshot [ (service_wallet, true) ] None [].

Definition other_wallet := "0x742D35CC6634c0532925A3b844BC9E7595F0BEb0".

Definition not_allowed : CheeseMintCollectionState :=
  snapshot [ (other_wallet, true) ] (Some catalog) [].

(** A stand-in for the wallet validator: it knows one Arweave address. *)
Definition knows_wallet_A (address : string) : ValidationResult :=
  if String.eqb address wallet_A
  then {| valid := true; type := Some Arweave; normalized := Some wallet_A;
          error := None |}
  else {| valid := false; type := None; normalized := None;
          error := Some "Unrecognized wallet address format" |}.

Definition arns_job (address : string) : Job unit :=
  {| job_name := "arns-search";
     job_data := {| eventType := "arns-search"; walletAddress := address;
                    metadata := None |} |}.

(** ** Further inputs *)

(** The message is accepted, the fetch of its result fails once. *)
Definition result_lost : Scripted :=
  script [] [inr "msg-1"; inr "msg-2"] [inl server_error; inr tt] 1000.

(** A catalog with two achievements of one name. *)
Definition homonyms : CheeseMintsById :=
  [ mint "cm-1" ACHIEVEMENT_WUZZY_SEARCHER; mint "cm-9" ACHIEVEMENT_WUZZY_SEARCHER ].


(** [wallet_A] holds the awards for [cm-1] and [cm-4]. *)
Definition state_both : CheeseMintCollectionState :=
  snapshot [ (service_wallet, true) ] (Some catalog)
    [ (wallet_A, [ ("cm-1", {| awarded_by := service_wallet; awarded_at := 2;
                               message_id := "msg-1" |});
                   ("cm-4", {| awarded_by := service_wallet; awarded_at := 3;
                               message_id := "msg-2" |}) ]) ].

(** A validator that says valid and normalizes nothing. *)
Definition careless (address : string) : ValidationResult :=
  {| valid := true; type := Some Arweave; normalized := None; error := None |}.

Definition text_job : Job unit :=
  {| job_name := "text-search";
     job_data := {| eventType := "text-search"; walletAddress := wallet_A;
                    metadata := None |} |}.

Ltac unfold_monad :=
  unfold mbind, M_bind, mret, M_ret, bind, ret, throw, out_of_fuel, emit,
    this, update_this, now, sleep, round_trip, try_catch in *.

(** * Properties *)

(** ** The JavaScript helpers on small inputs *)

Example includes_server_error :
  includes "Error running dryrun: 500 Internal Server Error" "500" = true.
Proof. reflexivity. Qed.

Example includes_other_error : includes "fetch failed: 404 Not Found" "500" = false.
Proof. reflexivity. Qed.

Example includes_empty : includes "" "500" = false /\ includes "abc" "" = true.
Proof. split; reflexivity. Qed.

Example parseInt_default : parseInt "300000" = Some 300000.
Proof. reflexivity. Qed.

Example parseInt_forms :
  parseInt "  60000ms" = Some 60000 /\ parseInt "-12" = Some (-12) /\
  parseInt "0x1F" = Some 31 /\ parseInt "five minutes" = None /\ parseInt "" = None.
Proof. repeat split; reflexivity. Qed.

Example join_names : join ", " ["a"; "b"; "c"] = "a, b, c" /\ join ", " [] = "".
Proof. split; reflexivity. Qed.

Example backoff_schedule : backoff <$> [0; 1; 2] = [2000; 4000; 8000].
Proof. reflexivity. Qed.

(** ** Traces of sequenced computations *)

Section TraceLemmas.
Context {P : Platform}.

Lemma sleeps_app (e1 e2 : list Event) : sleeps (e1 ++ e2) = sleeps e1 ++ sleeps e2.
Proof. apply omap_app. Qed.

Lemma observed_errors_app (e1 e2 : list Event) :
  observed_errors (e1 ++ e2) = observed_errors e1 ++ observed_errors e2.
Proof. apply omap_app. Qed.

Lemma attempts_app (e1 e2 : list Event) : attempts (e1 ++ e2) = attempts e1 ++ attempts e2.
Proof. apply omap_app. Qed.

Lemma dry_run_calls_app (e1 e2 : list Event) :
  dry_run_calls (e1 ++ e2) = dry_run_calls e1 ++ dry_run_calls e2.
Proof. apply omap_app. Qed.

Lemma message_calls_app (e1 e2 : list Event) :
  message_calls (e1 ++ e2) = message_calls e1 ++ message_calls e2.
Proof. apply omap_app. Qed.

Lemma transmissions_app (e1 e2 : list Event) :
  transmissions (e1 ++ e2) = transmissions e1 ++ transmissions e2.
Proof. apply omap_app. Qed.

Lemma award_calls_app (e1 e2 : list Event) :
  award_calls (e1 ++ e2) = award_calls e1 ++ award_calls e2.
Proof. apply omap_app. Qed.

End TraceLemmas.

Create Rewrite HintDb trace.
#[global] Hint Rewrite @sleeps_app @observed_errors_app @attempts_app
  @dry_run_calls_app @message_calls_app @transmissions_app @award_calls_app
  : trace.

(** ** The retry loop *)

Section RetryFacts.
Context {P : Platform} {A : Type}.
Variable attempt : M (Error + A).

Hypothesis attempt_ok : well_behaved attempt.

Lemma retry_loop_facts fuel : forall retries a lastError m r m' evs,
  (Z.to_nat (retries - a) <= fuel)%nat ->
  retry_loop attempt fuel retries a lastError m = (r, m', evs) ->
  loop_facts retries a lastError m r m' evs.
Proof.
  induction fuel as [|fuel IH]; intros retries a lastError m r m' evs Hfuel Hrun.
  - simpl in Hrun. destruct (a <? retries) eqn:Hlt; [apply Z.ltb_lt in Hlt; lia|].
    apply Z.ltb_ge in Hlt.
    assert (r = Throw (exhausted_error lastError) /\ m' = m /\ evs = []) as (-> & -> & ->).
    { destruct lastError; unfold_monad; simplify_eq; repeat split; reflexivity. }
    split; simpl; try done; try lia.
    all: try (intros e [= <-]; right; repeat split; try done; lia).
    all: intros; lia.
  - simpl in Hrun. destruct (a <? retries) eqn:Hlt.
    2:{ apply Z.ltb_ge in Hlt.
        assert (r = Throw (exhausted_error lastError) /\ m' = m /\ evs = []) as (-> & -> & ->).
        { destruct lastError; unfold_monad; simplify_eq; repeat split; reflexivity. }
        split; simpl; try done; try lia.
        all: try (intros e [= <-]; right; repeat split; try done; lia).
        all: intros; lia. }
    apply Z.ltb_lt in Hlt.
    destruct (attempt_ok m) as (outcome & m1 & e1 & Hatt & Hsvc & Hsl & Hat & Herr & Hend & Hdc & Hmc).
    unfold bind at 1 in Hrun. rewrite Hatt in Hrun.
    destruct outcome as [err|response].
    + destruct (retryable err) eqn:Hretry.
      * unfold bind at 1 in Hrun. unfold sleep at 1 in Hrun.
        destruct (retry_loop attempt fuel retries (a + 1) (Some err) _) as [[r2 m2] e2] eqn:Hrec.
        simplify_eq.
        apply IH in Hrec; [|lia]. destruct Hrec as [F1 F2 F3 F4 F5 F6 F7 F8 [F9 F10]].
        simpl in F2.
        split; autorewrite with trace; rewrite ?Hsl, ?Hat, ?Herr, ?Hdc, ?Hmc; simpl.
        -- done.
        -- congruence.
        -- lia.
        -- rewrite Hretry. simpl. rewrite F4.
           rewrite Nat2Z.inj_succ, (seqZ_cons a) by lia. simpl.
           rewrite Z.pred_succ. reflexivity.
        -- rewrite F5. done.
        -- intros e [<-|Hin] Hne; [congruence|].
           destruct (F6 e Hin Hne) as (-> & Hlast & pre & ev & -> & Hev).
           split; [done|]. split.
           { destruct (observed_errors (pre ++ [ev])); [done|]. done. }
           exists (e1 ++ Slept (backoff a) :: pre), ev. split; [|done].
           rewrite <- app_assoc. reflexivity.
        -- intros e ->. left.
           destruct (F7 e eq_refl) as [Hlast|(Hnil & _ & ->)].
           ++ destruct (observed_errors e2); [done|]. done.
           ++ rewrite Hnil. done.
        -- intros e -> Hall. apply Forall_cons in Hall as [_ Hall].
           rewrite (F8 e eq_refl Hall). lia.
        -- rewrite F9, F10. done.
      * unfold throw in Hrun. simplify_eq.
        split; autorewrite with trace; rewrite ?Hsl, ?Hat, ?Herr, ?Hdc, ?Hmc; simpl;
          rewrite ?Hretry; simpl; try done; try lia.
        -- intros e [<-|[]] _. repeat split; try done.
           destruct Hend as (pre & ev & -> & Hev). exists pre, ev.
           rewrite app_nil_r. done.
        -- intros e [= <-]. by left.
        -- intros e [= <-] Hall. apply Forall_cons in Hall as [Hall _]. congruence.
    + unfold ret in Hrun. simplify_eq.
      split; autorewrite with trace; rewrite ?Hsl, ?Hat, ?Herr, ?Hdc, ?Hmc; simpl;
        try done; try lia.
Qed.

End RetryFacts.

(** ** The two loops of the Ledger Client are instances of it *)

Section LedgerClient.
Context {P : Platform}.

Lemma sendAosDryRun_loop_generic fuel : forall opts retries a lastError m,
  sendAosDryRun_loop fuel opts retries a lastError m =
  retry_loop (dry_run_attempt opts) fuel retries a lastError m.
Proof.
  induction fuel as [|fuel IH]; intros opts retries a lastError m; simpl;
    destruct (a <? retries); try reflexivity.
  unfold dry_run_attempt, retryable, backoff. unfold_monad.
  destruct (aoDryRun opts (world m)) as [[err|res] w]; simpl; [|reflexivity].
  destruct (includes (message err) "500"); [|reflexivity].
  rewrite IH. reflexivity.
Qed.

Lemma sendAosMessage_loop_generic fuel : forall opts retries a lastError m,
  sendAosMessage_loop fuel opts retries a lastError m =
  retry_loop (message_then_result opts) fuel retries a lastError m.
Proof.
  induction fuel as [|fuel IH]; intros opts retries a lastError m; simpl;
    destruct (a <? retries); try reflexivity.
  unfold retryable, backoff. unfold mbind, M_bind, bind.
  destruct (message_then_result opts m) as [[[[err|response]| |] m1] e1]; try reflexivity.
  destruct (includes (message err) "500"); [|reflexivity].
  unfold sleep. rewrite IH. reflexivity.
Qed.

Lemma dry_run_attempt_ok opts : well_behaved (dry_run_attempt opts).
Proof.
  intros m. unfold dry_run_attempt. unfold_monad.
  destruct (aoDryRun opts (world m)) as [[err|res] w]; simpl;
    eexists _, _, _; repeat split.
  exists [], (AoDryRun opts (inl err)). done.
Qed.

Lemma message_then_result_ok opts : well_behaved (message_then_result opts).
Proof.
  intros m. unfold message_then_result. unfold_monad.
  destruct (aoMessage opts (signer opts) (world m)) as [[err|mid] w]; simpl.
  { eexists _, _, _; repeat split.
    exists [], (AoMessage opts (inl err)). done. }
  destruct (aoResult mid (processId opts) w) as [[err|res] w']; simpl;
    eexists _, _, _; repeat split.
  exists [AoMessage opts (inr mid)], (AoResult mid (processId opts) (inl err)). done.
Qed.

(** Both operations run the loop with enough fuel. *)
Lemma sendAosDryRun_facts opts retries m r m' evs :
  sendAosDryRun opts retries m = (r, m', evs) ->
  exists evs', evs = DryRunCalled opts :: evs' /\
    loop_facts (A := DryRunResponse) retries 0 None m r m' evs'.
Proof.
  unfold sendAosDryRun. unfold mbind, M_bind, bind, emit. intros Hrun.
  rewrite sendAosDryRun_loop_generic in Hrun.
  destruct (retry_loop _ _ _ _ _ m) as [[r2 m2] e2] eqn:Hloop.
  apply retry_loop_facts in Hloop; [|apply dry_run_attempt_ok|lia].
  exists e2. destruct r2; simplify_eq; done.
Qed.

Lemma sendAosMessage_facts opts retries m r m' evs :
  sendAosMessage opts retries m = (r, m', evs) ->
  exists evs', evs = MessageCalled opts :: evs' /\
    loop_facts (A := MessageResponse) retries 0 None m r m' evs'.
Proof.
  unfold sendAosMessage. unfold mbind, M_bind, bind, emit. intros Hrun.
  rewrite sendAosMessage_loop_generic in Hrun.
  destruct (retry_loop _ _ _ _ _ m) as [[r2 m2] e2] eqn:Hloop.
  apply retry_loop_facts in Hloop; [|apply message_then_result_ok|lia].
  exists e2. destruct r2; simplify_eq; done.
Qed.

End LedgerClient.

(** ** The retry policy *)

Section RetryPolicy.
Context {P : Platform}.

Lemma loop_facts_policy {A} (m m' : Machine) (r : completion A) (call : Event)
    (evs : list Event) :
  attempts [call] = [] -> sleeps [call] = [] -> observed_errors [call] = [] ->
  loop_facts 3 0 None m r m' evs ->
  follows_retry_policy r (call :: evs).
Proof.
  intros Hat Hsl Herr [F1 F2 F3 F4 F5 F6 F7 F8 F9].
  change (call :: evs) with ([call] ++ evs).
  unfold follows_retry_policy. autorewrite with trace. rewrite Hat, Hsl, Herr. simpl.
  assert (Hn : (List.length (List.filter retryable (observed_errors evs)) <= 3)%nat).
  { pose proof (List.filter_length_le retryable (observed_errors evs)).
    change (Z.to_nat (3 - 0)) with 3%nat in F3. lia. }
  repeat split.
  - exact F3.
  - rewrite F4.
    destruct (List.length (List.filter retryable (observed_errors evs))) as [|[|[|[|n]]]];
      [reflexivity..|lia].
  - by destruct (F6 e H H0).
  - destruct (F6 e H H0) as (_ & _ & pre & ev & -> & Hev).
    exists (call :: pre), ev. done.
  - intros e -> Hretry. apply (F8 e eq_refl).
    apply List.Forall_forall. intros e' Hin.
    destruct (retryable e') eqn:He'; [done|].
    destruct (F6 e' Hin He') as ([= ->] & _). congruence.
  - exact F1.
Qed.

(** C2. Both Ledger Client operations, called with their budget of three
    attempts, follow the retry policy: at most three attempts, a backoff of
    [2^attempt * 2000] ms after each server error (2 s, 4 s, 8 s), any other
    error thrown at once with no further attempt; a call whose first
    attempt fails with another error makes no retry, and a call whose first
    two attempts fail with server errors and whose third succeeds returns
    that result after sleeping 2 s and 4 s. *)
Theorem retry_policy (m : Machine) :
  (forall opts r m' evs,
     sendAosDryRun opts 3 m = (r, m', evs) -> follows_retry_policy r evs) /\
  (forall opts r m' evs,
     sendAosMessage opts 3 m = (r, m', evs) -> follows_retry_policy r evs) /\
  (forall opts e w1,
     aoDryRun opts (world m) = (inl e, w1) -> retryable e = false ->
     sendAosDryRun opts 3 m =
       (Throw e, with_world w1 m, [DryRunCalled opts; AoDryRun opts (inl e)])) /\
  (forall opts e m1 ev1,
     message_then_result opts m = (Normal (inl e), m1, ev1) -> retryable e = false ->
     sendAosMessage opts 3 m = (Throw e, m1, MessageCalled opts :: ev1)) /\
  (forall opts e1 w1 e2 w2 res w3,
     aoDryRun opts (world m) = (inl e1, w1) -> retryable e1 = true ->
     aoDryRun opts (setTimeout 2000 w1) = (inl e2, w2) -> retryable e2 = true ->
     aoDryRun opts (setTimeout 4000 w2) = (inr res, w3) ->
     sendAosDryRun opts 3 m =
       (Normal {| result := res |}, with_world w3 m,
        [DryRunCalled opts; AoDryRun opts (inl e1); Slept 2000;
         AoDryRun opts (inl e2); Slept 4000; AoDryRun opts (inr res)])) /\
  (forall opts e1 m1 ev1 e2 m2 ev2 response m3 ev3,
     message_then_result opts m = (Normal (inl e1), m1, ev1) -> retryable e1 = true ->
     message_then_result opts (slept 2000 m1) = (Normal (inl e2), m2, ev2) ->
     retryable e2 = true ->
     message_then_result opts (slept 4000 m2) = (Normal (inr response), m3, ev3) ->
     sendAosMessage opts 3 m =
       (Normal response, m3,
        MessageCalled opts :: ev1 ++ Slept 2000 :: ev2 ++ Slept 4000 :: ev3)).
Proof.
  repeat apply conj.
  - intros opts r m' evs Hrun.
    apply sendAosDryRun_facts in Hrun as (evs' & -> & Hfacts).
    by eapply loop_facts_policy.
  - intros opts r m' evs Hrun.
    apply sendAosMessage_facts in Hrun as (evs' & -> & Hfacts).
    by eapply loop_facts_policy.
  - intros opts e w1 Hcall Hretry. unfold retryable in Hretry.
    unfold sendAosDryRun. simpl. unfold_monad. simpl.
    rewrite Hcall. simpl. rewrite Hretry. reflexivity.
  - intros opts e m1 ev1 Hcall Hretry. unfold retryable in Hretry.
    unfold sendAosMessage. simpl. unfold mbind, M_bind, bind, emit. simpl.
    rewrite Hcall. rewrite Hretry. unfold throw. rewrite app_nil_r. reflexivity.
  - intros opts e1 w1 e2 w2 res w3 H1 R1 H2 R2 H3. unfold retryable in R1, R2.
    unfold sendAosDryRun. simpl. unfold_monad. simpl.
    rewrite H1. simpl. rewrite R1. simpl.
    change (2 ^ 0 * 2000) with 2000. rewrite H2. simpl. rewrite R2. simpl.
    change (2 ^ (0 + 1) * 2000) with 4000. rewrite H3. reflexivity.
  - intros opts e1 m1 ev1 e2 m2 ev2 response m3 ev3 H1 R1 H2 R2 H3.
    unfold retryable in R1, R2. unfold slept in H2, H3.
    unfold sendAosMessage. simpl. unfold mbind, M_bind, bind, emit, sleep. simpl.
    rewrite H1, R1. simpl. change (2 ^ 0 * 2000) with 2000. rewrite H2, R2. simpl.
    change (2 ^ (0 + 1) * 2000) with 4000. rewrite H3. unfold mret, M_ret, ret.
    rewrite app_nil_r. reflexivity.
Qed.

End RetryPolicy.

(** ** The end of the retry loop *)

Section Exhaustion.
Context {P : Platform}.



End Exhaustion.

(** ** The state cache *)

Section StateCache.
Context {P : Platform}.

Lemma sendAosDryRun_frame opts retries m r m' evs :
  sendAosDryRun opts retries m = (r, m', evs) ->
  service m' = service m /\ dry_run_calls evs = [opts] /\ message_calls evs = [] /\
  r <> OutOfFuel.
Proof.
  intros Hrun. apply sendAosDryRun_facts in Hrun as (evs' & -> & [F1 F2 _ _ _ _ _ _ [F9 F10]]).
  simpl. rewrite F9, F10. done.
Qed.

(** A dry run hands nothing to [aoMessage]. *)
Lemma sendAosDryRun_loop_silent fuel : forall opts retries a lastError m r m' evs,
  sendAosDryRun_loop fuel opts retries a lastError m = (r, m', evs) ->
  transmissions evs = [].
Proof.
  induction fuel as [|fuel IH]; intros opts retries a lastError m r m' evs; simpl;
    destruct (a <? retries); try (destruct lastError; unfold_monad; by intros [= <- <- <-]).
  unfold_monad. destruct (aoDryRun opts (world m)) as [[err|res] w]; simpl;
    [|by intros [= <- <- <-]].
  destruct (includes (message err) "500"); [|by intros [= <- <- <-]].
  destruct (sendAosDryRun_loop fuel _ _ _ _ _) as [[r2 m2] e2] eqn:Hrec.
  apply IH in Hrec. intros [= <- <- <-]. simpl. exact Hrec.
Qed.

Lemma sendAosDryRun_silent opts retries m r m' evs :
  sendAosDryRun opts retries m = (r, m', evs) -> transmissions evs = [].
Proof.
  unfold sendAosDryRun. unfold mbind, M_bind, bind, emit.
  destruct (sendAosDryRun_loop _ _ _ _ _ m) as [[r2 m2] e2] eqn:Hloop.
  apply sendAosDryRun_loop_silent in Hloop. destruct r2; intros [= <- <- <-]; exact Hloop.
Qed.

(** A dry run that returns has its result in the trace. *)
Lemma sendAosDryRun_loop_answer fuel : forall opts retries a lastError m response m' evs,
  sendAosDryRun_loop fuel opts retries a lastError m = (Normal response, m', evs) ->
  In (AoDryRun opts (inr (result response))) evs.
Proof.
  induction fuel as [|fuel IH]; intros opts retries a lastError m response m' evs; simpl;
    destruct (a <? retries); try (destruct lastError; unfold_monad; by intros [=]).
  unfold_monad. destruct (aoDryRun opts (world m)) as [[err|res] w]; simpl.
  - destruct (includes (message err) "500"); [|by intros [=]].
    destruct (sendAosDryRun_loop fuel _ _ _ _ _) as [[r2 m2] e2] eqn:Hrec.
    intros [= -> <- <-]. apply IH in Hrec. simpl. right. right. exact Hrec.
  - intros [= <- <- <-]. simpl. by left.
Qed.

Lemma sendAosDryRun_answer opts retries m response m' evs :
  sendAosDryRun opts retries m = (Normal response, m', evs) ->
  In (AoDryRun opts (inr (result response))) evs.
Proof.
  unfold sendAosDryRun. unfold mbind, M_bind, bind, emit.
  destruct (sendAosDryRun_loop _ _ _ _ _ m) as [[r2 m2] e2] eqn:Hloop.
  intros [= -> <- <-]. apply sendAosDryRun_loop_answer in Hloop. simpl. by right.
Qed.

Lemma sendAosMessage_frame opts retries m r m' evs :
  sendAosMessage opts retries m = (r, m', evs) ->
  service m' = service m /\ message_calls evs = [opts] /\ dry_run_calls evs = [] /\
  r <> OutOfFuel.
Proof.
  intros Hrun. apply sendAosMessage_facts in Hrun as (evs' & -> & [F1 F2 _ _ _ _ _ _ [F9 F10]]).
  simpl. rewrite F9, F10. done.
Qed.

Lemma parseProcessInfo_unparsable res m :
  unparsable res ->
  parseProcessInfo res m = (Throw (new_Error "Invalid process info format"), m, []).
Proof.
  unfold parseProcessInfo. unfold_monad.
  intros [H|[H|[(first & rest & H & Hd)|(first & rest & text & err & H & Hd & Hp)]]];
    rewrite H; try reflexivity.
  - destruct Hd as [-> | ->]; reflexivity.
  - rewrite Hd. destruct (String.eqb text ""); [reflexivity|]. rewrite Hp. reflexivity.
Qed.

Lemma parseProcessInfo_parses res state m :
  parses_to res state -> parseProcessInfo res m = (Normal state, m, []).
Proof.
  intros (first & rest & text & H & Hd & Hne & Hp).
  unfold parseProcessInfo. unfold_monad. rewrite H, Hd.
  apply String.eqb_neq in Hne. rewrite Hne, Hp. reflexivity.
Qed.

Lemma parse_cases res : unparsable res \/ exists state, parses_to res state.
Proof.
  unfold unparsable, parses_to.
  destruct (Messages res) as [[|first rest]|] eqn:H; [tauto| |tauto].
  destruct (Data first) as [text|] eqn:Hd; [|left; eauto 10].
  destruct (String.eqb_spec text "") as [->|Hne]; [left; eauto 10|].
  destruct (JSON_parse text) as [err|state] eqn:Hp; [left; eauto 15|right; eauto 10].
Qed.

Lemma getProcessState_hit forceRefresh m cached :
  cache_hit forceRefresh m = Some cached ->
  getProcessState forceRefresh m = (Normal cached, m, []).
Proof.
  unfold cache_hit, getProcessState. unfold_monad. simpl.
  destruct forceRefresh; [done|].
  destruct (stateCache (service m)); [|done].
  destruct (num_lt _ _); [|done]. by intros [= ->].
Qed.

(** On a miss the call is the query, the parse and the replacement of the
    cache. *)
Lemma getProcessState_miss forceRefresh m :
  cache_hit forceRefresh m = None ->
  getProcessState forceRefresh m =
  match sendAosDryRun (view_state_query (svc_processId (service m))) 3 m with
  | (Normal response, m1, e1) =>
      match parseProcessInfo (result response) m1 with
      | (Normal info, _, _) =>
          (Normal info,
           {| world := world m1;
              service := set_stateCache (Some info) (Date_now (world m)) (service m1) |},
           e1)
      | (Throw e, _, _) => (Throw e, m1, e1)
      | (OutOfFuel, _, _) => (OutOfFuel, m1, e1)
      end
  | (Throw e, m1, e1) => (Throw e, m1, e1)
  | (OutOfFuel, m1, e1) => (OutOfFuel, m1, e1)
  end.
Proof.
  unfold cache_hit, getProcessState. intros Hmiss.
  assert (forall fetch : M CheeseMintCollectionState,
    (if forceRefresh then fetch
     else match stateCache (service m) with
          | Some cached =>
              if num_lt (Date_now (world m) - stateCacheTimestamp (service m))
                        (stateCacheTtlMs (service m))
              then mret (MRet := M_ret) cached else fetch
          | None => fetch
          end) m = fetch m) as Hfetch.
  { intros fetch. destruct forceRefresh; [done|].
    destruct (stateCache (service m)); [|done].
    destruct (num_lt _ _); [done|done]. }
  unfold mbind at 1 2, M_bind at 1 2, bind at 1 2, now, this. simpl.
  rewrite Hfetch. unfold mbind, M_bind, bind.
  destruct (sendAosDryRun _ 3 m) as [[[response| |] m1] e1]; try reflexivity.
  destruct (parse_cases (result response)) as [Hbad|[state Hok]].
  - rewrite (parseProcessInfo_unparsable _ _ Hbad). rewrite app_nil_r. reflexivity.
  - rewrite (parseProcessInfo_parses _ _ _ Hok). unfold update_this, mret, M_ret, ret.
    simpl. rewrite app_nil_r. reflexivity.
Qed.

End StateCache.

Section StateCacheClaims.
Context {P : Platform}.

(** Every run of [getProcessState]: served from the cache, or one query. *)
Lemma getProcessState_cases forceRefresh m r m' evs :
  getProcessState forceRefresh m = (r, m', evs) ->
  (exists cached, cache_hit forceRefresh m = Some cached /\
     r = Normal cached /\ m' = m /\ evs = []) \/
  (cache_hit forceRefresh m = None /\
   dry_run_calls evs = [view_state_query (svc_processId (service m))] /\
   message_calls evs = [] /\
   transmissions evs = [] /\
   r <> OutOfFuel /\
   service m' =
     match r with
     | Normal state => set_stateCache (Some state) (Date_now (world m)) (service m)
     | _ => service m
     end).
Proof.
  intros Hrun. destruct (cache_hit forceRefresh m) as [cached|] eqn:Hhit.
  - rewrite (getProcessState_hit _ _ _ Hhit) in Hrun. simplify_eq. left. eauto.
  - rewrite (getProcessState_miss _ _ Hhit) in Hrun. right. split; [done|].
    destruct (sendAosDryRun _ 3 m) as [[r1 m1] e1] eqn:Hquery.
    pose proof (sendAosDryRun_silent _ _ _ _ _ _ Hquery) as Hsilent.
    apply sendAosDryRun_frame in Hquery as (Hsvc & Hcalls & Hmsgs & Hfuel).
    destruct r1 as [response| |]; [|by simplify_eq|done].
    destruct (parse_cases (result response)) as [Hbad|[state Hok]].
    + rewrite (parseProcessInfo_unparsable _ _ Hbad) in Hrun. by simplify_eq.
    + rewrite (parseProcessInfo_parses _ _ _ Hok) in Hrun. simplify_eq. simpl.
      rewrite Hsvc. done.
Qed.

(** The state a call returns after a miss is the one parsed from the answer
    to its query. *)
Lemma getProcessState_fetched forceRefresh m state m' evs :
  cache_hit forceRefresh m = None ->
  getProcessState forceRefresh m = (Normal state, m', evs) ->
  exists res,
    In (AoDryRun (view_state_query (svc_processId (service m))) (inr res)) evs /\
    parses_to res state.
Proof.
  intros Hmiss Hrun. rewrite (getProcessState_miss _ _ Hmiss) in Hrun.
  destruct (sendAosDryRun _ 3 m) as [[r1 m1] e1] eqn:Hquery.
  destruct r1 as [response| |]; [|done..].
  apply sendAosDryRun_answer in Hquery.
  destruct (parse_cases (result response)) as [Hbad|[state' Hok]].
  - by rewrite (parseProcessInfo_unparsable _ _ Hbad) in Hrun.
  - rewrite (parseProcessInfo_parses _ _ _ Hok) in Hrun. simplify_eq. eauto.
Qed.


(** C4. When the dry-run response carries no parsable snapshot (no messages
    array, no message, no data in the first message, or data that is not
    valid JSON), [getProcessState] throws "Invalid process info format" and
    the cached state and its timestamp are as they were; more generally no
    failing call changes the service. *)
Theorem parse_failure_keeps_cache (forceRefresh : bool) (m : Machine) :
  (forall response m1 evs,
     cache_hit forceRefresh m = None ->
     sendAosDryRun (view_state_query (svc_processId (service m))) 3 m =
       (Normal response, m1, evs) ->
     unparsable (result response) ->
     getProcessState forceRefresh m =
       (Throw (new_Error "Invalid process info format"), m1, evs) /\
     stateCache (service m1) = stateCache (service m) /\
     stateCacheTimestamp (service m1) = stateCacheTimestamp (service m)) /\
  (forall e m' evs,
     getProcessState forceRefresh m = (Throw e, m', evs) ->
     service m' = service m).
Proof.
  split.
  - intros response m1 evs Hmiss Hquery Hbad.
    rewrite (getProcessState_miss _ _ Hmiss), Hquery.
    rewrite (parseProcessInfo_unparsable _ _ Hbad).
    apply sendAosDryRun_frame in Hquery as (-> & _). done.
  - intros e m' evs Hrun.
    apply getProcessState_cases in Hrun as [(cached & _ & [=] & _)|(_ & _ & _ & _ & _ & ->)].
    reflexivity.
Qed.

End StateCacheClaims.

(** ** Awards *)

Section Awards.
Context {P : Platform}.

Lemma hasAchievement_run walletAddress_ achievementId m :
  hasAchievement walletAddress_ achievementId m =
  match getProcessState false m with
  | (Normal state, m1, e1) =>
      match cheese_mints_by_address state with
      | None =>
          (Throw (new_TypeError ("Cannot read properties of undefined (reading '" +:+
                                 walletAddress_ +:+ "')")), m1, e1)
      | Some _ =>
          (Normal (bool_decide (is_Some (award_record state walletAddress_ achievementId))),
           m1, e1)
      end
  | (Throw e, m1, e1) => (Throw e, m1, e1)
  | (OutOfFuel, m1, e1) => (OutOfFuel, m1, e1)
  end.
Proof.
  unfold hasAchievement. unfold mbind, M_bind, bind.
  destruct (getProcessState false m) as [[[state| |] m1] e1]; try reflexivity.
  unfold award_record. destruct (cheese_mints_by_address state) as [byAddress|].
  - destruct (get byAddress walletAddress_) as [awards|]; unfold mret, M_ret, ret;
      rewrite app_nil_r; [|reflexivity].
    unfold has_key. destruct (get awards achievementId); reflexivity.
  - unfold throw. rewrite app_nil_r. reflexivity.
Qed.

Lemma getAchievementId_run achievementName m :
  getAchievementId achievementName m =
  (Normal match achievementIdsByName (service m) !! achievementName with
          | Some achievementId =>
              if String.eqb achievementId "" then None else Some achievementId
          | None => None
          end, m, []).
Proof.
  unfold getAchievementId. unfold_monad. simpl.
  destruct (achievementIdsByName (service m) !! achievementName) as [achievementId|];
    [|reflexivity].
  destruct (String.eqb achievementId ""); reflexivity.
Qed.

Lemma awardAchievement_run achievementName walletAddress_ m :
  awardAchievement achievementName walletAddress_ m =
  match achievementIdsByName (service m) !! achievementName with
  | None => (Normal tt, m, [])
  | Some achievementId =>
      if String.eqb achievementId "" then (Normal tt, m, [])
      else
        match hasAchievement walletAddress_ achievementId m with
        | (Normal true, m1, e1) => (Normal tt, m1, e1)
        | (Normal false, m1, e1) =>
            match sendAosMessage (award_message (service m1) achievementId walletAddress_) 3 m1 with
            | (Normal _, m2, e2) =>
                (Normal tt,
                 {| world := world m2; service := set_stateCache None 0 (service m2) |},
                 e1 ++ e2)
            | (Throw e, m2, e2) => (Throw e, m2, e1 ++ e2)
            | (OutOfFuel, m2, e2) => (OutOfFuel, m2, e1 ++ e2)
            end
        | (Throw e, m1, e1) => (Throw e, m1, e1)
        | (OutOfFuel, m1, e1) => (OutOfFuel, m1, e1)
        end
  end.
Proof.
  unfold awardAchievement.
  unfold mbind at 1, M_bind at 1, bind at 1. rewrite getAchievementId_run.
  destruct (achievementIdsByName (service m) !! achievementName) as [achievementId|];
    [|reflexivity].
  destruct (String.eqb achievementId ""); [reflexivity|].
  unfold mbind, M_bind, bind.
  destruct (hasAchievement walletAddress_ achievementId m) as [[[[|]| |] m1] e1];
    try reflexivity.
  { unfold mret, M_ret, ret. rewrite app_nil_r. reflexivity. }
  unfold try_catch, this, invalidateStateCache, update_this, throw. simpl.
  destruct (sendAosMessage _ 3 m1) as [[[response| |] m2] e2]; simpl;
    rewrite ?app_nil_r; reflexivity.
Qed.

End Awards.

Section AwardClaims.
Context {P : Platform}.

Lemma same_but_cache_refl svc : same_but_cache svc svc.
Proof. by repeat split. Qed.

Lemma same_but_cache_set cache timestamp svc svc' :
  same_but_cache svc svc' -> same_but_cache (set_stateCache cache timestamp svc) svc'.
Proof. intros (? & ? & ? & ? & ?). by repeat split. Qed.

Lemma getProcessState_same forceRefresh m r m' evs :
  getProcessState forceRefresh m = (r, m', evs) ->
  same_but_cache (service m') (service m) /\ message_calls evs = [] /\
  transmissions evs = [] /\
  (List.length (dry_run_calls evs) <= 1)%nat /\ r <> OutOfFuel.
Proof.
  intros Hrun. apply getProcessState_cases in Hrun
    as [(cached & _ & -> & -> & ->)|(_ & Hcalls & Hmsgs & Hsilent & Hfuel & ->)].
  - split; [apply same_but_cache_refl|]. repeat split; simpl; try done. lia.
  - rewrite Hcalls. split; [|repeat split; try done; simpl; lia].
    destruct r; try apply same_but_cache_set; apply same_but_cache_refl.
Qed.

Lemma award_message_same svc svc' achievementId walletAddress_ :
  same_but_cache svc svc' ->
  award_message svc achievementId walletAddress_ =
  award_message svc' achievementId walletAddress_.
Proof. intros (Hs & Hp & _). unfold award_message. by rewrite Hs, Hp. Qed.


(** C10. When the signed send inside [awardAchievement] throws, the error
    reaches the caller unchanged and the service, its cached state and
    timestamp included, is as the send found it; the cache is invalidated
    only when the send has returned. *)
Theorem failed_send_keeps_cache (achievementName walletAddress_ achievementId : string)
    (m : Machine) :
  achievementIdsByName (service m) !! achievementName = Some achievementId ->
  achievementId <> "" ->
  forall m1 e1,
    hasAchievement walletAddress_ achievementId m = (Normal false, m1, e1) ->
    (forall err m2 e2,
       sendAosMessage (award_message (service m1) achievementId walletAddress_) 3 m1 =
         (Throw err, m2, e2) ->
       awardAchievement achievementName walletAddress_ m = (Throw err, m2, e1 ++ e2) /\
       service m2 = service m1 /\
       stateCache (service m2) = stateCache (service m1) /\
       stateCacheTimestamp (service m2) = stateCacheTimestamp (service m1) /\
       (forall cached, cache_hit false m = Some cached -> service m2 = service m)) /\
    (forall response m2 e2,
       sendAosMessage (award_message (service m1) achievementId walletAddress_) 3 m1 =
         (Normal response, m2, e2) ->
       awardAchievement achievementName walletAddress_ m =
         (Normal tt, {| world := world m2; service := set_stateCache None 0 (service m1) |},
          e1 ++ e2)).
Proof.
  intros Hid Hne m1 e1 Hhas. apply String.eqb_neq in Hne. split.
  - intros err m2 e2 Hsend.
    rewrite awardAchievement_run, Hid, Hne, Hhas, Hsend.
    apply sendAosMessage_frame in Hsend as (Hs & _).
    repeat split; try by rewrite Hs.
    intros cached Hhit. rewrite Hs.
    rewrite hasAchievement_run, (getProcessState_hit _ _ _ Hhit) in Hhas.
    destruct (cheese_mints_by_address cached); by simplify_eq.
  - intros response m2 e2 Hsend.
    rewrite awardAchievement_run, Hid, Hne, Hhas, Hsend.
    apply sendAosMessage_frame in Hsend as (-> & _). reflexivity.
Qed.

End AwardClaims.

(** ** Start-up verification *)

Section Startup.
Context {P : Platform}.

Lemma Map_has_insert (ids : gmap string string) key value n :
  Map_has (<[key := value]> ids) n = String.eqb key n || Map_has ids n.
Proof.
  unfold Map_has. destruct (String.eqb_spec key n) as [->|Hne].
  - by rewrite lookup_insert_eq.
  - by rewrite lookup_insert_ne.
Qed.

Lemma Map_has_index_by_name mintsById : forall (ids : gmap string string) n,
  Map_has (index_by_name ids mintsById) n = Map_has ids n || in_catalog mintsById n.
Proof.
  induction mintsById as [|entry rest IH]; intros ids n; simpl.
  - by rewrite orb_false_r.
  - unfold index_by_name in *. simpl. rewrite IH, Map_has_insert.
    destruct (String.eqb _ n), (Map_has ids n); reflexivity.
Qed.

Lemma Map_has_empty n : Map_has ∅ n = false.
Proof. unfold Map_has. by rewrite lookup_empty. Qed.

Lemma try_catch_rethrow {A} (c : M A) m : try_catch c (fun err => throw err) m = c m.
Proof.
  unfold try_catch, throw. destruct (c m) as [[[a|e|] m1] e1]; try reflexivity.
  by rewrite app_nil_r.
Qed.

Lemma verifyAclPermissions_run info m :
  exists r evs,
    verifyAclPermissions info m = (r, m, evs) /\
    (r = Normal tt <-> wallet_enabled info (svc_walletAddress (service m)) = true) /\
    (r = Normal tt -> evs = []).
Proof.
  unfold verifyAclPermissions, wallet_enabled.
  destruct (acl info) as [acl_|]; [|eexists _, _; split; [reflexivity|]; split; [split|]; done].
  destruct (roles acl_) as [roles_|]; [|eexists _, _; split; [reflexivity|]; split; [split|]; done].
  destruct (get roles_ "Award-Cheese-Mint") as [permissions|];
    [|eexists _, _; split; [reflexivity|]; split; [split|]; done].
  unfold_monad. simpl.
  destruct (enabled permissions (svc_walletAddress (service m))); simpl;
    eexists _, _; (split; [reflexivity|]); split; try split; done.
Qed.

Lemma loadAchievementIds_run info m mintsById :
  cheese_mints_by_id info = Some mintsById ->
  achievementIdsByName (service m) = ∅ ->
  let missing :=
    List.filter (fun n => negb (in_catalog mintsById n)) REQUIRED_ACHIEVEMENTS in
  loadAchievementIds info m =
  (match missing with
   | [] => Normal tt
   | _ => Throw (new_Error ("Required achievements not found: " +:+ join ", " missing))
   end,
   {| world := world m;
      service := set_achievementIdsByName (index_by_name ∅ mintsById) (service m) |},
   []).
Proof.
  intros Hcat Hids missing. unfold loadAchievementIds. rewrite Hcat.
  unfold mbind, M_bind, bind, update_this, this, mret, M_ret, ret, throw.
  cbn [service achievementIdsByName set_achievementIdsByName]. rewrite Hids.
  assert (List.filter (fun n => negb (Map_has (index_by_name ∅ mintsById) n))
            REQUIRED_ACHIEVEMENTS = missing) as ->.
  { subst missing. apply List.filter_ext. intros n.
    by rewrite Map_has_index_by_name, Map_has_empty. }
  destruct missing; reflexivity.
Qed.

End Startup.

Section StartupClaims.
Context {P : Platform}.

Lemma missing_from_nil mintsById :
  missing_from mintsById = [] <->
  forallb (in_catalog mintsById) REQUIRED_ACHIEVEMENTS = true.
Proof.
  unfold missing_from. induction REQUIRED_ACHIEVEMENTS as [|n rest IH]; simpl; [done|].
  destruct (in_catalog mintsById n); simpl; [exact IH|]. split; discriminate.
Qed.

Lemma verifyAclPermissions_pass info m :
  wallet_enabled info (svc_walletAddress (service m)) = true ->
  verifyAclPermissions info m = (Normal tt, m, []).
Proof.
  intros Hen. destruct (verifyAclPermissions_run info m) as (r & evs & Hrun & Hiff & Hevs).
  apply Hiff in Hen. subst r. by rewrite (Hevs eq_refl) in Hrun.
Qed.

Lemma startup_checks_catalog info m mintsById :
  achievementIdsByName (service m) = ∅ ->
  wallet_enabled info (svc_walletAddress (service m)) = true ->
  cheese_mints_by_id info = Some mintsById ->
  startup_checks info m =
    (match missing_from mintsById with
     | [] => Normal tt
     | _ => Throw (new_Error ("Required achievements not found: " +:+
                              join ", " (missing_from mintsById)))
     end, indexed mintsById m, []).
Proof.
  intros Hids Hen Hcat. unfold startup_checks, bind.
  rewrite (verifyAclPermissions_pass _ _ Hen).
  by rewrite (loadAchievementIds_run _ _ _ Hcat Hids).
Qed.

Lemma startup_checks_no_catalog info m :
  wallet_enabled info (svc_walletAddress (service m)) = true ->
  cheese_mints_by_id info = None ->
  startup_checks info m =
    (Throw (new_Error "No cheese_mints_by_id found in process info"), m, []).
Proof.
  intros Hen Hcat. unfold startup_checks, bind.
  rewrite (verifyAclPermissions_pass _ _ Hen).
  unfold loadAchievementIds. by rewrite Hcat.
Qed.

(** The checks pass exactly on a snapshot that enables the wallet and whose
    catalog has the five names; the name map is then the index of the
    catalog. *)
Lemma startup_checks_pass info m r m' evs :
  achievementIdsByName (service m) = ∅ ->
  startup_checks info m = (r, m', evs) ->
  (r = Normal tt <->
   wallet_enabled info (svc_walletAddress (service m)) = true /\
   exists mintsById, cheese_mints_by_id info = Some mintsById /\
     forallb (in_catalog mintsById) REQUIRED_ACHIEVEMENTS = true) /\
  (r = Normal tt ->
   exists mintsById, cheese_mints_by_id info = Some mintsById /\
     m' = indexed mintsById m /\ evs = []).
Proof.
  intros Hids Hrun.
  destruct (wallet_enabled info (svc_walletAddress (service m))) eqn:Hen.
  - destruct (cheese_mints_by_id info) as [mintsById|] eqn:Hcat.
    + rewrite (startup_checks_catalog _ _ _ Hids Hen Hcat) in Hrun.
      destruct (missing_from mintsById) eqn:Hmiss.
      * simplify_eq. split; [|by eauto]. split; [|done]. intros _. split; [done|].
        exists mintsById. split; [done|]. by apply missing_from_nil.
      * simplify_eq. split; [|done]. split; [done|]. intros (_ & mints' & [= <-] & Hall).
        apply missing_from_nil in Hall. congruence.
    + rewrite (startup_checks_no_catalog _ _ Hen Hcat) in Hrun. simplify_eq.
      split; [|done]. split; [done|]. by intros (_ & ? & ? & _).
  - destruct (verifyAclPermissions_run info m) as (r0 & evs0 & Hacl & Hiff & _).
    unfold startup_checks, bind in Hrun. rewrite Hacl in Hrun.
    destruct r0 as [[]| |].
    + destruct Hiff as [Hiff _]. specialize (Hiff eq_refl). congruence.
    + simplify_eq. split; [|done]. split; [done|]. by intros [? _].
    + simplify_eq. split; [|done]. split; [done|]. by intros [? _].
Qed.

(** C7, as the code has it. On the snapshot fetched at start-up (the name
    map still empty) the two checks throw exactly when: the snapshot has no
    ACL or no roles table; the Award-Cheese-Mint role is not configured; the
    role does not enable the service's wallet, in which case the allowed
    addresses go to the error log and the error thrown has a fixed message;
    or, the ACL check passed, the snapshot has no catalog; or the catalog
    lacks some of the five required names, in which case the error names
    them.  With the wallet enabled and the five names present both checks
    pass. *)
Theorem startup_checks_outcome (info : CheeseMintCollectionState) (m : Machine) :
  achievementIdsByName (service m) = ∅ ->
  let address := svc_walletAddress (service m) in
  (forall r m' evs, startup_checks info m = (r, m', evs) ->
     (r = Normal tt <->
      wallet_enabled info address = true /\
      exists mintsById, cheese_mints_by_id info = Some mintsById /\
        forallb (in_catalog mintsById) REQUIRED_ACHIEVEMENTS = true)) /\
  (acl info = None \/ (exists acl_, acl info = Some acl_ /\ roles acl_ = None) ->
   startup_checks info m = (Throw (new_Error "No ACL found in process info"), m, [])) /\
  (forall acl_ roles_,
     acl info = Some acl_ -> roles acl_ = Some roles_ ->
     get roles_ "Award-Cheese-Mint" = None ->
     startup_checks info m =
       (Throw (new_Error "Award-Cheese-Mint permission not configured in ACL"), m, [])) /\
  (forall acl_ roles_ permissions,
     acl info = Some acl_ -> roles acl_ = Some roles_ ->
     get roles_ "Award-Cheese-Mint" = Some permissions ->
     enabled permissions address = false ->
     startup_checks info m =
       (Throw (new_Error "Wallet does not have Award-Cheese-Mint permission in AO process"),
        m,
        [LoggedError ("Wallet " +:+ address +:+ " is not in Award-Cheese-Mint ACL");
         LoggedError ("Allowed addresses: " +:+
                      join ", " (List.filter (enabled permissions) (keys permissions)))])) /\
  (wallet_enabled info address = true -> cheese_mints_by_id info = None ->
   startup_checks info m =
     (Throw (new_Error "No cheese_mints_by_id found in process info"), m, [])) /\
  (forall mintsById,
     wallet_enabled info address = true -> cheese_mints_by_id info = Some mintsById ->
     missing_from mintsById <> [] ->
     startup_checks info m =
       (Throw (new_Error ("Required achievements not found: " +:+
                          join ", " (missing_from mintsById))),
        indexed mintsById m, [])) /\
  (forall mintsById,
     wallet_enabled info address = true -> cheese_mints_by_id info = Some mintsById ->
     missing_from mintsById = [] ->
     startup_checks info m = (Normal tt, indexed mintsById m, [])).
Proof.
  intros Hids address. repeat apply conj.
  - intros r m' evs Hrun. by destruct (startup_checks_pass _ _ _ _ _ Hids Hrun).
  - intros Hno. unfold startup_checks, bind, verifyAclPermissions.
    destruct Hno as [-> | (acl_ & -> & ->)]; reflexivity.
  - intros acl_ roles_ Hacl Hroles Hrole.
    unfold startup_checks, bind, verifyAclPermissions. by rewrite Hacl, Hroles, Hrole.
  - intros acl_ roles_ permissions Hacl Hroles Hrole Hen.
    unfold startup_checks, bind, verifyAclPermissions. rewrite Hacl, Hroles, Hrole.
    unfold_monad. simpl. fold address. by rewrite Hen.
  - apply startup_checks_no_catalog.
  - intros mintsById Hen Hcat Hmiss. rewrite (startup_checks_catalog _ _ _ Hids Hen Hcat).
    by destruct (missing_from mintsById).
  - intros mintsById Hen Hcat Hmiss. rewrite (startup_checks_catalog _ _ _ Hids Hen Hcat).
    by rewrite Hmiss.
Qed.

End StartupClaims.

Section StartupFetch.
Context {P : Platform}.




End StartupFetch.

(** ** The processor *)

Section Processor.
Context {P : Platform} {Metadata : Type}.
Variable validateAndNormalize : string -> ValidationResult.

Lemma handleEvent_run (service_ : string -> string -> M unit) (job : Job Metadata)
    normalizedWallet walletType_ specific :
  get routing_table (job_name job) = Some specific ->
  forall m,
    handleEvent service_ job normalizedWallet walletType_ m =
    bind (service_ ACHIEVEMENT_WUZZY_SEARCHER normalizedWallet) (fun _ =>
      bind (service_ specific normalizedWallet) (fun _ =>
        fun m' => (Normal (result_record job normalizedWallet walletType_ m'), m', []))) m.
Proof.
  intros Hroute m. unfold handleEvent, result_record.
  unfold routing_table in Hroute. cbn [get] in Hroute.
  rewrite !(String.eqb_sym _ (job_name job)) in Hroute.
  destruct (String.eqb (job_name job) "arns-search") eqn:E1.
  { apply String.eqb_eq in E1. rewrite E1. simplify_eq. reflexivity. }
  destruct (String.eqb (job_name job) "image-search") eqn:E2.
  { apply String.eqb_eq in E2. rewrite E2. simplify_eq. reflexivity. }
  destruct (String.eqb (job_name job) "audio-search") eqn:E3.
  { apply String.eqb_eq in E3. rewrite E3. simplify_eq. reflexivity. }
  destruct (String.eqb (job_name job) "video-search") eqn:E4.
  { apply String.eqb_eq in E4. rewrite E4. simplify_eq. reflexivity. }
  discriminate.
Qed.



(** C6. For a job whose wallet address fails validation the processor
    throws "Wallet validation failed: ..." with the validator's reason; the
    error leaves [process] (it is thrown again by the catch clause), and the
    service is not called: nothing happens to the machine and no event is
    emitted, whatever the service is. *)
Theorem invalid_wallet_fails_before_awards (service_ : string -> string -> M unit)
    (job : Job Metadata) (m : Machine) :
  valid (validateAndNormalize (walletAddress (job_data job))) = false ->
  process validateAndNormalize service_ job m =
    (Throw (new_Error ("Wallet validation failed: " +:+
              interpolate (error (validateAndNormalize (walletAddress (job_data job)))))),
     m, []) /\
  award_calls (snd (process validateAndNormalize mockAchievementsService job m)) = [].
Proof.
  intros Hinvalid. unfold process. rewrite !try_catch_rethrow. cbv zeta.
  rewrite Hinvalid. done.
Qed.

End Processor.

(** * The properties on concrete runs *)

(** The retry policy on a transport that fails twice and then answers. *)
Lemma retry_policy_witness :
  sendAosDryRun (P := scripted) query 3 (machine flaky fresh_service) =
    (Normal {| result := {| Messages := Some [ {| Data := Some "before" |} ] |} |},
     with_world (P := scripted) (script [] [] [] 7000) (machine flaky fresh_service),
     [DryRunCalled query; AoDryRun query (inl server_error); Slept 2000;
      AoDryRun query (inl server_error); Slept 4000; AoDryRun query (answer "before")]) /\
  fst (fst (sendAosMessage (P := scripted) award_options 3 (machine flaky_send ready_service))) =
    Normal second_response /\
  sleeps (snd (sendAosMessage (P := scripted) award_options 3
                 (machine flaky_send ready_service))) = [2000; 4000] /\
  follows_retry_policy
    (fst (fst (sendAosDryRun (P := scripted) query 3 (machine failing fresh_service))))
    (snd (sendAosDryRun (P := scripted) query 3 (machine failing fresh_service))).
Proof.
  destruct (retry_policy (P := scripted) (machine flaky fresh_service))
    as (_ & _ & _ & _ & Hdry & _).
  destruct (retry_policy (P := scripted) (machine flaky_send ready_service))
    as (_ & _ & _ & _ & _ & Hsend).
  destruct (retry_policy (P := scripted) (machine failing fresh_service))
    as (Hpolicy & _).
  split; [|split; [|split]].
  - apply (Hdry query server_error
             (script [inl server_error; answer "before"] [] [] 1000)
             server_error (script [answer "before"] [] [] 3000)
             {| Messages := Some [ {| Data := Some "before" |} ] |}
             (script [] [] [] 7000)); reflexivity.
  - erewrite (Hsend award_options server_error _ _ server_error _ _
                second_response);
      [reflexivity|vm_compute; reflexivity..].
  - erewrite (Hsend award_options server_error _ _ server_error _ _
                second_response);
      [|vm_compute; reflexivity..].
    vm_compute. reflexivity.
  - apply (Hpolicy query _ (snd (fst (sendAosDryRun (P := scripted) query 3
                                        (machine failing fresh_service))))).
    vm_compute. reflexivity.
Defined.



(** A payload that is not JSON. *)
Lemma parse_failure_keeps_cache_witness :
  getProcessState (P := scripted) false (machine garbled fresh_service) =
    (Throw (new_Error "Invalid process info format"),
     machine (script [] [] [] 1000) fresh_service,
     [DryRunCalled query; AoDryRun query (answer "<html>")]).
Proof.
  destruct (parse_failure_keeps_cache (P := scripted) false (machine garbled fresh_service))
    as (Hparse & _).
  apply (Hparse {| result := {| Messages := Some [ {| Data := Some "<html>" |} ] |} |}).
  - reflexivity.
  - reflexivity.
  - right. right. right.
    exists {| Data := Some "<html>" |}, [], "<html>",
      {| err_name := "SyntaxError"; message := "Unexpected token" |}.
    repeat split.
Defined.


(** A send that is refused. *)
Lemma failed_send_keeps_cache_witness :
  awardAchievement (P := scripted) ACHIEVEMENT_WUZZY_SEARCHER wallet_A
    (machine refusing ready_service) =
    (Throw bad_request,
     machine (script [] [] [] 1000)
       (set_stateCache (P := scripted) (Some state_before) 1000 ready_service),
     [DryRunCalled query; AoDryRun query (answer "before")] ++
     [MessageCalled award_options; AoMessage award_options (inl bad_request)]).
Proof.
  destruct (failed_send_keeps_cache (P := scripted) ACHIEVEMENT_WUZZY_SEARCHER wallet_A
              "cm-1" (machine refusing ready_service) eq_refl ltac:(discriminate)
              (machine (script [] [inl bad_request] [] 1000)
                 (set_stateCache (P := scripted) (Some state_before) 1000 ready_service))
              [DryRunCalled query; AoDryRun query (answer "before")])
    as (Hfail & _).
  - vm_compute. reflexivity.
  - apply Hfail. vm_compute. reflexivity.
Defined.

(** The checks on a good snapshot, and on one that enables another wallet. *)
Lemma startup_checks_outcome_witness :
  startup_checks (P := scripted) state_before (machine awarding fresh_service) =
    (Normal tt, machine awarding ready_service, []) /\
  startup_checks (P := scripted) not_allowed (machine awarding fresh_service) =
    (Throw (new_Error "Wallet does not have Award-Cheese-Mint permission in AO process"),
     machine awarding fresh_service,
     [LoggedError ("Wallet " +:+ service_wallet +:+ " is not in Award-Cheese-Mint ACL");
      LoggedError ("Allowed addresses: " +:+ other_wallet)]).
Proof.
  destruct (startup_checks_outcome (P := scripted) state_before
              (machine awarding fresh_service) eq_refl)
    as (_ & _ & _ & _ & _ & _ & Hpass).
  destruct (startup_checks_outcome (P := scripted) not_allowed
              (machine awarding fresh_service) eq_refl)
    as (_ & _ & _ & Hdenied & _).
  split.
  - apply (Hpass catalog); reflexivity.
  - apply (Hdenied {| roles := Some [ ("Award-Cheese-Mint", [ (other_wallet, true) ]) ] |}
             [ ("Award-Cheese-Mint", [ (other_wallet, true) ]) ]
             [ (other_wallet, true) ]); reflexivity.
Defined.

(** C7 as stated fails twice. With the ACL check passed, a snapshot without
    a catalog fails the verification with an error that names none of the
    required achievements; and the error thrown for a wallet that is not
    enabled does not list the allowed addresses (the log does). *)
Lemma startup_checks_counterexample :
  ~ (forall (info : CheeseMintCollectionState) (m : Machine (P := scripted)) e m' evs,
       achievementIdsByName (service m) = ∅ ->
       wallet_enabled info (svc_walletAddress (service m)) = true ->
       startup_checks info m = (Throw e, m', evs) ->
       exists n, In n REQUIRED_ACHIEVEMENTS /\ includes (message e) n = true) /\
  ~ (forall (info : CheeseMintCollectionState) (m : Machine (P := scripted))
            acl_ roles_ permissions e m' evs,
       acl info = Some acl_ -> roles acl_ = Some roles_ ->
       get roles_ "Award-Cheese-Mint" = Some permissions ->
       enabled permissions (svc_walletAddress (service m)) = false ->
       startup_checks info m = (Throw e, m', evs) ->
       forall address, enabled permissions address = true ->
         includes (message e) address = true).
Proof.
  split.
  - intros Hclaim.
    destruct (Hclaim no_catalog (machine awarding fresh_service)
                (new_Error "No cheese_mints_by_id found in process info")
                (machine awarding fresh_service) [] eq_refl eq_refl eq_refl)
      as (n & Hin & Hnamed).
    simpl in Hin. destruct Hin as [<-|[<-|[<-|[<-|[<-|[]]]]]]; vm_compute in Hnamed;
      discriminate.
  - intros Hclaim.
    pose proof (Hclaim not_allowed (machine awarding fresh_service)
                  {| roles := Some [ ("Award-Cheese-Mint", [ (other_wallet, true) ]) ] |}
                  [ ("Award-Cheese-Mint", [ (other_wallet, true) ]) ]
                  [ (other_wallet, true) ]
                  (new_Error "Wallet does not have Award-Cheese-Mint permission in AO process")
                  (machine awarding fresh_service)
                  [LoggedError ("Wallet " +:+ service_wallet +:+
                                " is not in Award-Cheese-Mint ACL");
                   LoggedError ("Allowed addresses: " +:+ other_wallet)]
                  eq_refl eq_refl eq_refl eq_refl eq_refl other_wallet eq_refl) as Hlisted.
    vm_compute in Hlisted. discriminate.
Qed.




Lemma invalid_wallet_fails_before_awards_witness :
  process knows_wallet_A (awardAchievement (P := scripted))
    (arns_job "invalid-wallet-address") (machine awarding ready_service) =
    (Throw (new_Error "Wallet validation failed: Unrecognized wallet address format"),
     machine awarding ready_service, []).
Proof.
  apply (invalid_wallet_fails_before_awards (P := scripted) knows_wallet_A
           awardAchievement (arns_job "invalid-wallet-address")
           (machine awarding ready_service)).
  reflexivity.
Defined.

(** * Further properties of the code *)

(** ** The server-error test *)

Lemma prefix_append sub s :
  String.prefix sub s = true <-> exists post, s = sub +:+ post.
Proof.
  revert s. induction sub as [|c sub IH]; intros s.
  - destruct s; simpl; (split; [intros _; by eexists|done]).
  - destruct s as [|c' s]; simpl; [split; [done|by intros [? [=]]]|].
    destruct (Ascii.ascii_dec c c') as [<-|Hne].
    + rewrite IH. split; intros [post Hpost]; exists post.
      * by rewrite Hpost.
      * by injection Hpost.
    + split; [done|]. intros [post [= ? ?]]. congruence.
Qed.

Lemma includes_substring s sub :
  includes s sub = true <-> exists pre post, s = pre +:+ sub +:+ post.
Proof.
  induction s as [|c s IH]; cbn [includes].
  - rewrite orb_false_r, prefix_append. split.
    + intros [post Hpost]. exists "", post. done.
    + intros ([|? ?] & post & Hs); [|done]. simpl in Hs. eauto.
  - rewrite orb_true_iff, IH, prefix_append. split.
    + intros [[post Hpost]|(pre & post & Hs)].
      * exists "", post. done.
      * exists (String c pre), post. simpl. by rewrite Hs.
    + intros ([|c' pre] & post & Hs); simpl in Hs.
      * left. eauto.
      * right. exists pre, post. by injection Hs.
Qed.

(** X1. An error is classified as a server error, and so retried, exactly
    when the characters 500 occur somewhere in its message. *)
Theorem retryable_iff_message_contains_500 (e : Error) :
  retryable e = true <-> exists pre post, message e = pre +:+ "500" +:+ post.
Proof. apply includes_substring. Qed.

(** ** The Ledger Client for any budget *)

Section ClientBudget.
Context {P : Platform}.




End ClientBudget.

(** ** What a signed send puts on the transport *)

Section SendTraffic.
Context {P : Platform}.

Lemma message_then_result_shape opts m :
  exists outcome m' evs,
    message_then_result opts m = (Normal outcome, m', evs) /\
    transmissions evs = [opts] /\ attempts evs = [tt] /\
    (forall response, outcome = inr response ->
       evs = [AoMessage opts (inr (messageId response));
              AoResult (messageId response) (processId opts)
                (inr (message_result response))]).
Proof.
  unfold message_then_result. unfold_monad.
  destruct (aoMessage opts (signer opts) (world m)) as [[err|mid] w]; simpl.
  { eexists _, _, _. repeat split. by intros ? [=]. }
  destruct (aoResult mid (processId opts) w) as [[err|res] w']; simpl;
    eexists _, _, _; repeat split; by intros ? [= <-].
Qed.

Lemma transmissions_slept ms (evs : list Event) :
  transmissions (Slept ms :: evs) = transmissions evs.
Proof. reflexivity. Qed.

Lemma attempts_slept ms (evs : list Event) : attempts (Slept ms :: evs) = attempts evs.
Proof. reflexivity. Qed.

Lemma sendAosMessage_loop_traffic fuel : forall opts retries a lastError m r m' evs,
  sendAosMessage_loop fuel opts retries a lastError m = (r, m', evs) ->
  transmissions evs = replicate (List.length (attempts evs)) opts /\
  (forall response, r = Normal response ->
     exists pre,
       evs = pre ++ [AoMessage opts (inr (messageId response));
                     AoResult (messageId response) (processId opts)
                       (inr (message_result response))]).
Proof.
  induction fuel as [|fuel IH]; intros opts retries a lastError m r m' evs; simpl;
    destruct (a <? retries);
    try (destruct lastError; unfold_monad; by intros [= <- <- <-]).
  unfold mbind, M_bind, bind.
  destruct (message_then_result_shape opts m)
    as (outcome & m1 & e1 & -> & Htr & Hat & Hshape).
  destruct outcome as [err|response].
  - destruct (includes (message err) "500").
    + unfold sleep.
      destruct (sendAosMessage_loop fuel _ _ _ _ _) as [[r2 m2] e2] eqn:Hrec.
      apply IH in Hrec as [Htr2 Hshape2]. intros [= <- <- <-].
      autorewrite with trace. rewrite transmissions_slept, attempts_slept.
      rewrite Htr, Hat, Htr2. split; [done|].
      intros response' Hr. destruct (Hshape2 _ Hr) as [pre ->].
      exists (e1 ++ Slept (2 ^ a * 2000) :: pre). by rewrite <- app_assoc.
    + unfold throw. intros [= <- <- <-]. rewrite app_nil_r, Htr, Hat. done.
  - unfold mret, M_ret, ret. intros [= <- <- <-]. rewrite app_nil_r, Htr, Hat.
    split; [done|]. intros ? [= <-]. exists []. by apply Hshape.
Qed.

(** X3. Every attempt of [sendAosMessage] hands the signed message to
    [aoMessage] again: a call transmits it as many times as it makes
    attempts.  In particular, when the message was accepted and only the
    fetch of its result failed with a server error, a budget of two or more
    sends the same message a second time. *)
Theorem send_retry_retransmits (opts : SendAosMessageOptions) (retries : Z) (m : Machine) :
  (forall r m' evs,
     sendAosMessage opts retries m = (r, m', evs) ->
     transmissions evs = replicate (List.length (attempts evs)) opts) /\
  (forall accepted w1 err w2 r m' evs,
     aoMessage opts (signer opts) (world m) = (inr accepted, w1) ->
     aoResult accepted (processId opts) w1 = (inl err, w2) ->
     retryable err = true ->
     1 < retries ->
     sendAosMessage opts retries m = (r, m', evs) ->
     exists rest,
       transmissions evs = opts :: opts :: rest /\
       In (AoMessage opts (inr accepted)) evs).
Proof.
  split.
  - intros r m' evs. unfold sendAosMessage. unfold mbind, M_bind, bind, emit.
    destruct (sendAosMessage_loop _ _ _ _ _ m) as [[r2 m2] e2] eqn:Hloop.
    apply sendAosMessage_loop_traffic in Hloop as [Htr _].
    destruct r2; intros [= <- <- <-]; exact Htr.
  - intros accepted w1 err w2 r m' evs Hsent Hfetch Hretry Hbudget.
    unfold retryable in Hretry.
    unfold sendAosMessage. unfold mbind at 1, M_bind at 1, bind at 1, emit.
    destruct (Z.to_nat retries) as [|[|fuel]] eqn:Hfuel; [lia..|].
    cbn [sendAosMessage_loop].
    assert ((0 <? retries) = true) as -> by (apply Z.ltb_lt; lia).
    assert ((0 + 1 <? retries) = true) as -> by (apply Z.ltb_lt; lia).
    unfold mbind at 1, M_bind at 1, bind at 1.
    unfold message_then_result at 1. unfold_monad. rewrite Hsent. simpl.
    rewrite Hfetch. simpl. rewrite Hretry.
    match goal with
    | |- context [message_then_result opts ?m1] =>
        destruct (message_then_result_shape opts m1)
          as (outcome & m2 & e2 & -> & Htr & _ & _)
    end.
    destruct outcome as [err2|response].
    + destruct (includes (message err2) "500").
      * destruct (sendAosMessage_loop fuel _ _ _ _ _) as [[r3 m3] e3].
        intros [= <- <- <-]. simpl. autorewrite with trace. rewrite Htr. simpl.
        eexists. split; [reflexivity|]. by right; left.
      * intros [= <- <- <-]. simpl. rewrite app_nil_r, Htr.
        eexists. split; [reflexivity|]. by right; left.
    + intros [= <- <- <-]. simpl. rewrite app_nil_r, Htr.
      eexists. split; [reflexivity|]. by right; left.
Qed.

(** X4. What [sendAosMessage] resolves to pairs the id of the last message
    sent with the result fetched for that id: the trace of a call that
    returns ends with that message and that fetch. *)
Theorem send_result_matches_message (opts : SendAosMessageOptions) (retries : Z)
    (m m' : Machine) (response : MessageResponse) (evs : list Event) :
  sendAosMessage opts retries m = (Normal response, m', evs) ->
  exists pre,
    evs = pre ++ [AoMessage opts (inr (messageId response));
                  AoResult (messageId response) (processId opts)
                    (inr (message_result response))].
Proof.
  unfold sendAosMessage. unfold mbind, M_bind, bind, emit.
  destruct (sendAosMessage_loop _ _ _ _ _ m) as [[r2 m2] e2] eqn:Hloop.
  apply sendAosMessage_loop_traffic in Hloop as [_ Hshape].
  intros [= -> <- <-]. destruct (Hshape _ eq_refl) as [pre ->].
  exists (MessageCalled opts :: pre). reflexivity.
Qed.

End SendTraffic.

(** ** Awards, in general *)

Section AwardFacts.
Context {P : Platform}.

Lemma awardAchievement_facts achievementName walletAddress_ m r m' evs :
  awardAchievement achievementName walletAddress_ m = (r, m', evs) ->
  r <> OutOfFuel /\
  same_but_cache (service m') (service m) /\
  (List.length (message_calls evs) <= 1)%nat /\
  (List.length (dry_run_calls evs) <= 1)%nat /\
  (forall opts, In opts (message_calls evs) ->
     exists achievementId state byAddress ma ea,
       achievementIdsByName (service m) !! achievementName = Some achievementId /\
       achievementId <> "" /\
       opts = award_message (service m) achievementId walletAddress_ /\
       getProcessState false m = (Normal state, ma, ea) /\
       cheese_mints_by_address state = Some byAddress /\
       award_record state walletAddress_ achievementId = None).
Proof.
  rewrite awardAchievement_run.
  destruct (achievementIdsByName (service m) !! achievementName) as [achievementId|] eqn:Hid.
  2:{ intros [= <- <- <-]. split; [done|]. split; [apply same_but_cache_refl|].
      simpl. split; [lia|]. split; [lia|]. by intros ? []. }
  destruct (String.eqb_spec achievementId "") as [->|Hne].
  { intros [= <- <- <-]. split; [done|]. split; [apply same_but_cache_refl|].
    simpl. split; [lia|]. split; [lia|]. by intros ? []. }
  rewrite hasAchievement_run.
  destruct (getProcessState false m) as [[r1 m1] e1] eqn:Hread.
  destruct (getProcessState_same _ _ _ _ _ Hread) as (Hsame & Hmsgs & _ & Hdry & Hfuel).
  destruct r1 as [state| |]; [|intros [= <- <- <-]..|done].
  2:{ rewrite Hmsgs. split; [done|]. split; [done|]. simpl. split; [lia|]. split; [lia|]. by intros ? []. }
  destruct (cheese_mints_by_address state) as [byAddress|] eqn:Hby.
  2:{ intros [= <- <- <-]. rewrite Hmsgs. split; [done|]. split; [done|].
      simpl. split; [lia|]. split; [lia|]. by intros ? []. }
  destruct (award_record state walletAddress_ achievementId) as [record|] eqn:Hrec.
  { rewrite bool_decide_eq_true_2 by eauto. intros [= <- <- <-]. rewrite Hmsgs.
    split; [done|]. split; [done|]. simpl. split; [lia|]. split; [lia|]. by intros ? []. }
  rewrite bool_decide_eq_false_2 by (intros [? [=]]).
  destruct (sendAosMessage _ 3 m1) as [[r2 m2] e2] eqn:Hsend.
  apply sendAosMessage_frame in Hsend as (Hsvc & Hcalls & Hnodry & Hfuel2).
  rewrite (award_message_same _ _ _ _ Hsame) in Hcalls.
  assert (Hsame2 : same_but_cache (service m2) (service m)) by (by rewrite Hsvc).
  intros Hrun.
  assert (evs = e1 ++ e2 /\ r <> OutOfFuel /\ same_but_cache (service m') (service m))
    as (-> & Hr & Hm').
  { destruct r2 as [response| |]; [| |done]; injection Hrun as <- <- <-.
    - split; [done|]. split; [done|]. by apply same_but_cache_set.
    - done. }
  split; [done|]. split; [done|]. autorewrite with trace.
  rewrite Hmsgs, Hcalls, Hnodry, app_nil_r. simpl. split; [lia|]. split; [lia|].
  intros opts [<-|[]]. exists achievementId, state, byAddress, m1, e1. done.
Qed.

(** X5. Whatever the name, the wallet and the state of the world,
    [awardAchievement] comes to an end, makes at most one remote query and
    at most one signed send, and changes nothing of the instance but the
    cache; and it only sends after a state read of the same call returned
    a snapshot whose award table holds no record for the wallet and the id
    the name resolves to: the message is the award of that id to that
    wallet. *)
Theorem award_sends_only_after_a_clean_read (achievementName walletAddress_ : string)
    (m m' : Machine) (r : completion unit) (evs : list Event) :
  awardAchievement achievementName walletAddress_ m = (r, m', evs) ->
  r <> OutOfFuel /\
  same_but_cache (service m') (service m) /\
  (List.length (message_calls evs) <= 1)%nat /\
  (List.length (dry_run_calls evs) <= 1)%nat /\
  (forall opts, In opts (message_calls evs) ->
     exists achievementId state byAddress ma ea,
       achievementIdsByName (service m) !! achievementName = Some achievementId /\
       achievementId <> "" /\
       opts = award_message (service m) achievementId walletAddress_ /\
       getProcessState false m = (Normal state, ma, ea) /\
       cheese_mints_by_address state = Some byAddress /\
       award_record state walletAddress_ achievementId = None).
Proof. apply awardAchievement_facts. Qed.

(** X6. A name the service cannot resolve, because the map has no entry for
    it or because the id it holds is the empty string, makes
    [getAchievementId] return [undefined] and [awardAchievement] return at
    once: no state read, no send, nothing changed. *)
Theorem unresolved_name_is_noop (achievementName walletAddress_ : string) (m : Machine) :
  achievementIdsByName (service m) !! achievementName = None \/
  achievementIdsByName (service m) !! achievementName = Some "" ->
  getAchievementId achievementName m = (Normal None, m, []) /\
  awardAchievement achievementName walletAddress_ m = (Normal tt, m, []).
Proof.
  intros Hid. rewrite getAchievementId_run, awardAchievement_run.
  destruct Hid as [-> | ->]; done.
Qed.

(** X7. With the name resolved, a state read that fails makes
    [awardAchievement] fail with the same error, and a snapshot without the
    award table makes it fail with a [TypeError]; in both cases nothing is
    sent. *)
Theorem award_read_failure_sends_nothing
    (achievementName walletAddress_ achievementId : string) (m : Machine) :
  achievementIdsByName (service m) !! achievementName = Some achievementId ->
  achievementId <> "" ->
  (forall err m1 e1,
     getProcessState false m = (Throw err, m1, e1) ->
     awardAchievement achievementName walletAddress_ m = (Throw err, m1, e1) /\
     message_calls e1 = [] /\ transmissions e1 = []) /\
  (forall state m1 e1,
     getProcessState false m = (Normal state, m1, e1) ->
     cheese_mints_by_address state = None ->
     awardAchievement achievementName walletAddress_ m =
       (Throw (new_TypeError ("Cannot read properties of undefined (reading '" +:+
                              walletAddress_ +:+ "')")), m1, e1) /\
     message_calls e1 = [] /\ transmissions e1 = []).
Proof.
  intros Hid Hne. apply String.eqb_neq in Hne. split.
  - intros err m1 e1 Hread.
    rewrite awardAchievement_run, Hid, Hne, hasAchievement_run, Hread.
    by destruct (getProcessState_same _ _ _ _ _ Hread) as (_ & ? & ? & _).
  - intros state m1 e1 Hread Hby.
    rewrite awardAchievement_run, Hid, Hne, hasAchievement_run, Hread, Hby.
    by destruct (getProcessState_same _ _ _ _ _ Hread) as (_ & ? & ? & _).
Qed.

(** X8. A call of [awardAchievement] that sent and returned leaves the cache
    empty with timestamp 0, so the next award on the instance, for any
    resolved name and any wallet, starts with a remote query. *)
Theorem award_success_forces_next_read (achievementName walletAddress_ : string)
    (m m1 : Machine) (evs1 : list Event) :
  awardAchievement achievementName walletAddress_ m = (Normal tt, m1, evs1) ->
  message_calls evs1 <> [] ->
  stateCache (service m1) = None /\
  stateCacheTimestamp (service m1) = 0 /\
  forall nextName nextWallet nextId m1' r2 m2 evs2,
    service m1' = service m1 ->
    achievementIdsByName (service m) !! nextName = Some nextId ->
    nextId <> "" ->
    awardAchievement nextName nextWallet m1' = (r2, m2, evs2) ->
    dry_run_calls evs2 = [view_state_query (svc_processId (service m))].
Proof.
  intros Hfirst Hsent.
  assert (stateCache (service m1) = None /\ stateCacheTimestamp (service m1) = 0 /\
          same_but_cache (service m1) (service m)) as (Hcache & Hstamp & Hsame).
  { pose proof (awardAchievement_facts _ _ _ _ _ _ Hfirst) as (_ & Hs & _).
    split; [|split; [|done]]; revert Hfirst; rewrite awardAchievement_run.
    all: destruct (achievementIdsByName (service m) !! achievementName) as [achievementId|];
      [|intros [= <- <-]; by destruct Hsent].
    all: destruct (String.eqb achievementId ""); [intros [= <- <-]; by destruct Hsent|].
    all: rewrite hasAchievement_run.
    all: destruct (getProcessState false m) as [[r0 m0] e0] eqn:Hread.
    all: destruct (getProcessState_same _ _ _ _ _ Hread) as (_ & Hmsgs & _).
    all: destruct r0 as [state| |]; [|done..].
    all: destruct (cheese_mints_by_address state); [|done].
    all: destruct (bool_decide _); [intros [= <- <-]; by rewrite Hmsgs in Hsent|].
    all: destruct (sendAosMessage _ 3 m0) as [[[response| |] m2] e2]; [|done..].
    all: by intros [= <- <-]. }
  split; [done|]. split; [done|].
  intros nextName nextWallet nextId m1' r2 m2 evs2 Hsvc Hid Hne.
  destruct Hsame as (_ & Hpid & _ & Hids & _).
  apply String.eqb_neq in Hne.
  rewrite awardAchievement_run, Hsvc, Hids, Hid, Hne, hasAchievement_run.
  destruct (getProcessState false m1') as [[r0 m0] e0] eqn:Hread.
  apply getProcessState_cases in Hread
    as [(cached & Hhit & _)|(_ & Hcalls & _ & _ & _ & Hsvc0)].
  { unfold cache_hit in Hhit. by rewrite Hsvc, Hcache in Hhit. }
  rewrite Hsvc, Hpid in Hcalls.
  destruct r0 as [state| |]; [|by intros [= <- <- <-]..].
  destruct (cheese_mints_by_address state); [|by intros [= <- <- <-]].
  destruct (bool_decide _); [by intros [= <- <- <-]|].
  destruct (sendAosMessage _ 3 m0) as [[r3 m3] e3] eqn:Hsend.
  apply sendAosMessage_frame in Hsend as (_ & _ & Hnodry & _).
  destruct r3; intros [= <- <- <-]; autorewrite with trace;
    by rewrite Hcalls, Hnodry.
Qed.

End AwardFacts.

(** ** The cache, in general *)

Section CacheFacts.
Context {P : Platform}.

Lemma cache_hit_fresh forceRefresh m cached :
  cache_hit forceRefresh m = Some cached <->
  forceRefresh = false /\ stateCache (service m) = Some cached /\
  exists ttl, stateCacheTtlMs (service m) = Some ttl /\
    Date_now (world m) - stateCacheTimestamp (service m) < ttl.
Proof.
  unfold cache_hit, num_lt. split.
  - destruct forceRefresh; [done|]. destruct (stateCache (service m)); [|done].
    destruct (stateCacheTtlMs (service m)) as [ttl|]; [|done].
    destruct (Z.ltb_spec (Date_now (world m) - stateCacheTimestamp (service m)) ttl);
      [|done].
    intros [= ->]. eauto.
  - intros (-> & -> & ttl & -> & Hage). apply Z.ltb_lt in Hage. by rewrite Hage.
Qed.

(** X9. A forced refresh never serves the cache: [getProcessState(true)]
    issues exactly one state query whatever the cache holds; when it returns
    a state, that state was parsed from an answer to the query and replaces
    the cache, stamped with the time read when the call began; when it
    throws, the instance is as it was. *)
Theorem forced_refresh_bypasses_cache (m m' : Machine)
    (r : completion CheeseMintCollectionState) (evs : list Event) :
  getProcessState true m = (r, m', evs) ->
  dry_run_calls evs = [view_state_query (svc_processId (service m))] /\
  message_calls evs = [] /\
  r <> OutOfFuel /\
  (forall state, r = Normal state ->
     service m' = set_stateCache (Some state) (Date_now (world m)) (service m) /\
     exists res,
       In (AoDryRun (view_state_query (svc_processId (service m))) (inr res)) evs /\
       parses_to res state) /\
  (forall err, r = Throw err -> service m' = service m).
Proof.
  intros Hrun. pose proof (getProcessState_fetched true m) as Hfetched.
  destruct (getProcessState_cases _ _ _ _ _ Hrun)
    as [(cached & [=] & _)|(_ & Hcalls & Hmsgs & _ & Hfuel & Hsvc)].
  split; [done|]. split; [done|]. split; [done|]. split.
  - intros state ->. split; [done|]. by apply (Hfetched state m' evs).
  - by intros err ->.
Qed.

(** X10. [getProcessState] answers without a remote query exactly when the
    refresh is not forced, a state is cached, the TTL is a number and the
    age of the cache, counted from the stored timestamp, is strictly below
    it; it then returns the cached state and touches nothing.  In every
    other case (refresh forced, cache empty, TTL not a number, age equal to
    the TTL or above) it issues one query. *)
Theorem cache_served_iff_fresh (forceRefresh : bool) (m m' : Machine)
    (r : completion CheeseMintCollectionState) (evs : list Event) :
  getProcessState forceRefresh m = (r, m', evs) ->
  let fresh :=
    forceRefresh = false /\
    exists cached ttl,
      stateCache (service m) = Some cached /\
      stateCacheTtlMs (service m) = Some ttl /\
      Date_now (world m) - stateCacheTimestamp (service m) < ttl in
  (dry_run_calls evs = [] <-> fresh) /\
  (fresh -> evs = [] /\ m' = m /\
            exists cached, stateCache (service m) = Some cached /\ r = Normal cached) /\
  (~ fresh -> dry_run_calls evs = [view_state_query (svc_processId (service m))]).
Proof.
  intros Hrun fresh.
  assert (fresh <-> exists cached, cache_hit forceRefresh m = Some cached) as Hfresh.
  { subst fresh. split.
    - intros (Hforce & cached & ttl & Hc & Httl & Hage). exists cached.
      apply cache_hit_fresh. eauto.
    - intros (cached & Hhit). apply cache_hit_fresh in Hhit as (? & ? & ttl & ? & ?).
      eauto 6. }
  apply getProcessState_cases in Hrun
    as [(cached & Hhit & -> & -> & ->)|(Hmiss & Hcalls & _)].
  - split; [split; [intros _; apply Hfresh; eauto|done]|].
    split; [|by intros []; apply Hfresh; eauto].
    intros _. apply cache_hit_fresh in Hhit as (_ & -> & _). eauto.
  - assert (~ fresh) as Hnot.
    { intros Hf. apply Hfresh in Hf as (cached & Hhit). congruence. }
    split; [split; [by rewrite Hcalls|done]|]. split; [done|done].
Qed.


End CacheFacts.

(** ** The catalog and the name map *)

Section CatalogFacts.
Context {P : Platform}.

Lemma index_by_name_app (ids : gmap string string) (front back : CheeseMintsById) :
  index_by_name ids (front ++ back) = index_by_name (index_by_name ids front) back.
Proof. unfold index_by_name. apply foldl_app. Qed.

Lemma index_by_name_other (mintsById : CheeseMintsById) : forall (ids : gmap string string) n,
  List.Forall (fun entry => name (snd entry) <> n) mintsById ->
  index_by_name ids mintsById !! n = ids !! n.
Proof.
  induction mintsById as [|entry rest IH]; intros ids n Hother; [done|].
  inversion Hother as [|? ? Hentry Hrest]; subst.
  change (index_by_name ids (entry :: rest))
    with (index_by_name (<[name (snd entry) := fst entry]> ids) rest).
  rewrite (IH _ _ Hrest). by apply lookup_insert_ne.
Qed.

(** X12. The name map built from a catalog resolves a name to the id of the
    last catalog entry that carries it, in the order of [Object.entries]:
    a later entry of the same name overrides an earlier one; a name that no
    entry carries keeps what the map held for it before. *)
Theorem index_by_name_last_wins (ids : gmap string string) (mintsById : CheeseMintsById)
    (n : string) :
  (forall front id_ mint_ back,
     mintsById = front ++ (id_, mint_) :: back ->
     name mint_ = n ->
     List.Forall (fun entry => name (snd entry) <> n) back ->
     index_by_name ids mintsById !! n = Some id_) /\
  (List.Forall (fun entry => name (snd entry) <> n) mintsById ->
   index_by_name ids mintsById !! n = ids !! n).
Proof.
  split; [|apply index_by_name_other].
  intros front id_ mint_ back -> <- Hback.
  rewrite index_by_name_app.
  change (index_by_name (index_by_name ids front) ((id_, mint_) :: back))
    with (index_by_name (<[name mint_ := id_]> (index_by_name ids front)) back).
  rewrite (index_by_name_other _ _ _ Hback). apply lookup_insert_eq.
Qed.

Lemma filter_nil_none {A} (f : A -> bool) (l : list A) :
  List.filter f l = [] -> forall x, In x l -> f x = false.
Proof.
  induction l as [|a l IH]; simpl; [by intros _ ? []|].
  destruct (f a) eqn:Hfa; [done|]. intros Hnil x [<-|Hin]; [done|]. by apply IH.
Qed.

Lemma loadAchievementIds_any info m mintsById :
  cheese_mints_by_id info = Some mintsById ->
  let ids' := index_by_name (achievementIdsByName (service m)) mintsById in
  let missing := List.filter (fun n => negb (Map_has ids' n)) REQUIRED_ACHIEVEMENTS in
  loadAchievementIds info m =
  (match missing with
   | [] => Normal tt
   | _ => Throw (new_Error ("Required achievements not found: " +:+ join ", " missing))
   end,
   {| world := world m; service := set_achievementIdsByName ids' (service m) |},
   []).
Proof.
  intros Hcat ids' missing. unfold loadAchievementIds. rewrite Hcat.
  unfold mbind, M_bind, bind, update_this, this, mret, M_ret, ret, throw.
  cbn [service achievementIdsByName set_achievementIdsByName].
  fold ids'. fold missing. destruct missing; reflexivity.
Qed.

(** X13. [loadAchievementIds] only adds to the name map, and it adds before
    it checks: with a catalog in the snapshot the map afterwards is the old
    map overridden by the catalog's names, also when the call throws because
    a required name is missing; a name known before is still known, and
    nothing else of the instance changes.  When
    the call returns, each of the five required names is in the map, and
    [getAchievementId] resolves it to the id held there unless that id is
    the empty string, which it reports as [undefined]. *)
Theorem load_only_adds_names (info : CheeseMintCollectionState) (m m' : Machine)
    (r : completion unit) (evs : list Event) :
  loadAchievementIds info m = (r, m', evs) ->
  evs = [] /\ world m' = world m /\ r <> OutOfFuel /\
  service m' = set_achievementIdsByName (achievementIdsByName (service m')) (service m) /\
  (cheese_mints_by_id info = None -> m' = m /\ exists err, r = Throw err) /\
  (forall mintsById, cheese_mints_by_id info = Some mintsById ->
     achievementIdsByName (service m') =
       index_by_name (achievementIdsByName (service m)) mintsById) /\
  (forall n, Map_has (achievementIdsByName (service m)) n = true ->
             Map_has (achievementIdsByName (service m')) n = true) /\
  (r = Normal tt ->
   forall n, In n REQUIRED_ACHIEVEMENTS ->
     exists id_,
       achievementIdsByName (service m') !! n = Some id_ /\
       getAchievementId n m' =
         (Normal (if String.eqb id_ "" then None else Some id_), m', [])).
Proof.
  destruct (cheese_mints_by_id info) as [mintsById|] eqn:Hcat.
  - rewrite (loadAchievementIds_any _ _ _ Hcat). cbv zeta.
    set (ids' := index_by_name _ mintsById).
    set (missing := List.filter _ REQUIRED_ACHIEVEMENTS).
    intros Hrun.
    assert (m' = {| world := world m; service := set_achievementIdsByName ids' (service m) |}
            /\ evs = [] /\ r <> OutOfFuel /\ (r = Normal tt -> missing = []))
      as (-> & -> & Hr & Hnone).
    { destruct missing; simplify_eq; done. }
    cbn [service world achievementIdsByName set_achievementIdsByName].
    split; [done|]. split; [done|]. split; [done|]. split; [done|].
    split; [done|]. split; [by intros ? [= <-]|]. split.
    + intros n Hn. subst ids'. by rewrite Map_has_index_by_name, Hn.
    + intros Hok n Hin. specialize (Hnone Hok).
      pose proof (filter_nil_none _ _ Hnone n Hin) as Hhas. apply negb_false_iff in Hhas.
      unfold Map_has in Hhas. destruct (ids' !! n) as [id_|] eqn:Hid; [|done].
      exists id_. split; [done|]. rewrite getAchievementId_run.
      cbn [service achievementIdsByName set_achievementIdsByName]. rewrite Hid.
      by destruct (String.eqb id_ "").
  - unfold loadAchievementIds. rewrite Hcat. intros [= <- <- <-].
    split; [done|]. split; [done|]. split; [done|]. split; [by destruct (service m)|].
    split; [eauto|]. split; [done|]. split; [done|]. done.
Qed.

End CatalogFacts.

(** ** Start-up, then awards *)

Section StartupThenAward.
Context {P : Platform}.





End StartupThenAward.

(** ** Jobs, in general *)

Section ProcessorFacts.
Context {P : Platform} {Metadata : Type}.
Variable validateAndNormalize : string -> ValidationResult.

Lemma handleEvent_unknown (service_ : string -> string -> M unit) (job : Job Metadata)
    normalizedWallet walletType_ m :
  get routing_table (job_name job) = None ->
  handleEvent service_ job normalizedWallet walletType_ m =
    (Throw (new_Error ("Unknown job type: " +:+ job_name job)), m, []).
Proof.
  intros Hroute. unfold handleEvent.
  unfold routing_table in Hroute. cbn [get] in Hroute.
  rewrite !(String.eqb_sym _ (job_name job)) in Hroute.
  destruct (String.eqb (job_name job) "arns-search"); [done|].
  destruct (String.eqb (job_name job) "image-search"); [done|].
  destruct (String.eqb (job_name job) "audio-search"); [done|].
  destruct (String.eqb (job_name job) "video-search"); [done|].
  reflexivity.
Qed.

Lemma process_run (service_ : string -> string -> M unit) (job : Job Metadata) m :
  let validation := validateAndNormalize (walletAddress (job_data job)) in
  process validateAndNormalize service_ job m =
  if valid validation then
    match normalized validation, type validation with
    | Some normalizedWallet, Some walletType_ =>
        if String.eqb normalizedWallet "" then
          (Throw (new_Error "Validation succeeded but missing normalized data"), m, [])
        else
          match get routing_table (job_name job) with
          | Some specific =>
              bind (service_ ACHIEVEMENT_WUZZY_SEARCHER normalizedWallet) (fun _ =>
                bind (service_ specific normalizedWallet) (fun _ =>
                  fun m' =>
                    (Normal (result_record job normalizedWallet walletType_ m'), m', []))) m
          | None => (Throw (new_Error ("Unknown job type: " +:+ job_name job)), m, [])
          end
    | _, _ => (Throw (new_Error "Validation succeeded but missing normalized data"), m, [])
    end
  else
    (Throw (new_Error ("Wallet validation failed: " +:+ interpolate (error validation))),
     m, []).
Proof.
  intros validation. unfold process. rewrite try_catch_rethrow. cbv zeta. fold validation.
  destruct (valid validation); [|reflexivity]. cbn [negb].
  destruct (normalized validation) as [normalizedWallet|]; [|reflexivity].
  destruct (type validation) as [walletType_|]; [|reflexivity].
  destruct (String.eqb normalizedWallet ""); [reflexivity|].
  destruct (get routing_table (job_name job)) as [specific|] eqn:Hroute.
  - apply (handleEvent_run _ _ _ _ _ Hroute).
  - by apply handleEvent_unknown.
Qed.

(** X15. A job whose wallet validates but whose name is none of the four
    event types fails with "Unknown job type: <name>"; the error leaves
    [process], and the service is not called, whatever it is. *)
Theorem unknown_job_type_throws (service_ : string -> string -> M unit)
    (job : Job Metadata) (normalizedWallet : string) (walletType_ : WalletType)
    (m : Machine) :
  valid (validateAndNormalize (walletAddress (job_data job))) = true ->
  normalized (validateAndNormalize (walletAddress (job_data job))) = Some normalizedWallet ->
  normalizedWallet <> "" ->
  type (validateAndNormalize (walletAddress (job_data job))) = Some walletType_ ->
  get routing_table (job_name job) = None ->
  process validateAndNormalize service_ job m =
    (Throw (new_Error ("Unknown job type: " +:+ job_name job)), m, []).
Proof.
  intros Hvalid Hnorm Hne Htype Hroute. rewrite process_run. cbv zeta.
  apply String.eqb_neq in Hne. by rewrite Hvalid, Hnorm, Htype, Hne, Hroute.
Qed.

(** X16. A validation result that says valid but lacks the normalized
    address (absent or empty) or the wallet type makes [process] fail with
    "Validation succeeded but missing normalized data", whatever the job
    name, before any call of the service. *)
Theorem valid_without_normalized_data_throws (service_ : string -> string -> M unit)
    (job : Job Metadata) (m : Machine) :
  valid (validateAndNormalize (walletAddress (job_data job))) = true ->
  normalized (validateAndNormalize (walletAddress (job_data job))) = None \/
  normalized (validateAndNormalize (walletAddress (job_data job))) = Some "" \/
  type (validateAndNormalize (walletAddress (job_data job))) = None ->
  process validateAndNormalize service_ job m =
    (Throw (new_Error "Validation succeeded but missing normalized data"), m, []).
Proof.
  intros Hvalid Hmissing. rewrite process_run. cbv zeta. rewrite Hvalid.
  destruct Hmissing as [-> | [-> | ->]].
  - reflexivity.
  - by destruct (type _).
  - by destruct (normalized _).
Qed.

(** X17. Whatever the job and the validator, run with the recording test
    double [process] leaves the machine as it was and either fails without
    a single call of [awardAchievement], or returns the result record after
    exactly two calls, both for the normalized address: never one call, and
    never a call for the address as submitted. *)
Theorem process_awards_none_or_both (job : Job Metadata) (m m' : Machine)
    (r : completion (ProcessResult Metadata)) (evs : list Event) :
  process validateAndNormalize mockAchievementsService job m = (r, m', evs) ->
  m' = m /\
  ((exists err, r = Throw err /\ evs = []) \/
   (exists normalizedWallet walletType_ specific,
      valid (validateAndNormalize (walletAddress (job_data job))) = true /\
      normalized (validateAndNormalize (walletAddress (job_data job))) =
        Some normalizedWallet /\
      type (validateAndNormalize (walletAddress (job_data job))) = Some walletType_ /\
      get routing_table (job_name job) = Some specific /\
      r = Normal (result_record job normalizedWallet walletType_ m) /\
      evs = [AwardCalled ACHIEVEMENT_WUZZY_SEARCHER normalizedWallet;
             AwardCalled specific normalizedWallet])).
Proof.
  rewrite process_run. cbv zeta.
  destruct (valid _) eqn:Hvalid; [|intros [= <- <- <-]; eauto].
  destruct (normalized _) as [normalizedWallet|] eqn:Hnorm; [|intros [= <- <- <-]; eauto].
  destruct (type _) as [walletType_|] eqn:Htype; [|intros [= <- <- <-]; eauto].
  destruct (String.eqb normalizedWallet ""); [intros [= <- <- <-]; eauto|].
  destruct (get routing_table (job_name job)) as [specific|] eqn:Hroute;
    [|intros [= <- <- <-]; eauto].
  intros [= <- <- <-]. split; [done|]. right.
  exists normalizedWallet, walletType_, specific. done.
Qed.

(** X18. Whatever the job, the validator and the state of the world,
    [process] run with the service's [awardAchievement] comes to an end,
    changes nothing of the instance but the cache, and makes at most two
    remote queries and at most two signed sends; every send is an award
    message addressed to the normalized address of a wallet that
    validated. *)
Theorem live_job_traffic_bounded (job : Job Metadata) (m m' : Machine)
    (r : completion (ProcessResult Metadata)) (evs : list Event) :
  process validateAndNormalize awardAchievement job m = (r, m', evs) ->
  r <> OutOfFuel /\
  same_but_cache (service m') (service m) /\
  (List.length (dry_run_calls evs) <= 2)%nat /\
  (List.length (message_calls evs) <= 2)%nat /\
  (forall opts, In opts (message_calls evs) ->
     valid (validateAndNormalize (walletAddress (job_data job))) = true /\
     exists normalizedWallet achievementId,
       normalized (validateAndNormalize (walletAddress (job_data job))) =
         Some normalizedWallet /\
       opts = award_message (service m) achievementId normalizedWallet).
Proof.
  assert (forall err : Error,
    Throw (A := ProcessResult Metadata) err <> OutOfFuel /\
    same_but_cache (service m) (service m) /\
    (List.length (dry_run_calls []) <= 2)%nat /\
    (List.length (message_calls []) <= 2)%nat /\
    (forall opts, In opts (message_calls []) ->
       valid (validateAndNormalize (walletAddress (job_data job))) = true /\
       exists normalizedWallet achievementId,
         normalized (validateAndNormalize (walletAddress (job_data job))) =
           Some normalizedWallet /\
         opts = award_message (service m) achievementId normalizedWallet)) as Hquiet.
  { intros err. split; [done|]. split; [apply same_but_cache_refl|].
    simpl. split; [lia|]. split; [lia|]. by intros ? []. }
  rewrite process_run. cbv zeta.
  destruct (valid _) eqn:Hvalid; [|intros [= <- <- <-]; apply Hquiet].
  destruct (normalized _) as [normalizedWallet|] eqn:Hnorm;
    [|intros [= <- <- <-]; apply Hquiet].
  destruct (type _) as [walletType_|] eqn:Htype; [|intros [= <- <- <-]; apply Hquiet].
  destruct (String.eqb normalizedWallet ""); [intros [= <- <- <-]; apply Hquiet|].
  destruct (get routing_table (job_name job)) as [specific|] eqn:Hroute;
    [|intros [= <- <- <-]; apply Hquiet].
  clear Hquiet. unfold bind.
  destruct (awardAchievement ACHIEVEMENT_WUZZY_SEARCHER normalizedWallet m)
    as [[r1 m1] e1] eqn:Hfirst.
  apply awardAchievement_facts in Hfirst as (Hfuel1 & Hsame1 & Hmsgs1 & Hdry1 & Hsent1).
  assert (forall opts, In opts (message_calls e1) ->
            exists achievementId,
              opts = award_message (service m) achievementId normalizedWallet) as Hto1.
  { intros opts Hin. destruct (Hsent1 opts Hin) as (achievementId & ? & ? & ? & ? & _ & _ & -> & _).
    eauto. }
  clear Hsent1.
  destruct r1 as [[]| |]; [| |done].
  2:{ intros [= <- <- <-]. split; [done|]. split; [done|]. split; [lia|]. split; [lia|].
      intros opts Hin. split; [done|]. destruct (Hto1 opts Hin) as (achievementId & ->).
      eauto. }
  destruct (awardAchievement specific normalizedWallet m1) as [[r2 m2] e2] eqn:Hsecond.
  apply awardAchievement_facts in Hsecond as (Hfuel2 & Hsame2 & Hmsgs2 & Hdry2 & Hsent2).
  assert (forall opts, In opts (message_calls e2) ->
            exists achievementId,
              opts = award_message (service m) achievementId normalizedWallet) as Hto2.
  { intros opts Hin. destruct (Hsent2 opts Hin) as (achievementId & ? & ? & ? & ? & _ & _ & -> & _).
    exists achievementId. by apply award_message_same. }
  clear Hsent2.
  assert (same_but_cache (service m2) (service m)) as Hsame.
  { destruct Hsame1 as (? & ? & ? & ? & ?), Hsame2 as (? & ? & ? & ? & ?).
    split; [|split; [|split; [|split]]]; congruence. }
  intros Hrun.
  assert (r <> OutOfFuel /\ m' = m2 /\ evs = e1 ++ e2) as (Hfuel & -> & ->).
  { destruct r2 as [[]| |]; [| |done]; injection Hrun as <- <- <-;
      rewrite ?app_nil_r; done. }
  split; [done|]. split; [done|]. autorewrite with trace. rewrite !length_app.
  split; [lia|]. split; [lia|].
  intros opts [Hin|Hin]%in_app_or; (split; [done|]).
  - destruct (Hto1 opts Hin) as (achievementId & ->). eauto.
  - destruct (Hto2 opts Hin) as (achievementId & ->). eauto.
Qed.

Lemma awardAchievement_held achievementName walletAddress_ achievementId state record m :
  cache_hit false m = Some state ->
  achievementIdsByName (service m) !! achievementName = Some achievementId ->
  achievementId <> "" ->
  award_record state walletAddress_ achievementId = Some record ->
  awardAchievement achievementName walletAddress_ m = (Normal tt, m, []).
Proof.
  intros Hhit Hid Hne Hrec. apply String.eqb_neq in Hne.
  rewrite awardAchievement_run, Hid, Hne, hasAchievement_run.
  rewrite (getProcessState_hit _ _ _ Hhit).
  unfold award_record in Hrec |- *.
  destruct (cheese_mints_by_address state); [|done].
  rewrite bool_decide_eq_true_2; [done|]. unfold award_record. eauto.
Qed.

(** X19. A job of one of the four event types for a wallet that the cached
    snapshot, still within its TTL, shows to hold both achievements of the
    event completes without any traffic: no query, no send, the machine as
    it was, and the result record returned. *)
Theorem repeated_job_is_silent (job : Job Metadata)
    (normalizedWallet : string) (walletType_ : WalletType)
    (specific genericId specificId : string) (state : CheeseMintCollectionState)
    (held held' : CheeseMintAward) (m : Machine) :
  valid (validateAndNormalize (walletAddress (job_data job))) = true ->
  normalized (validateAndNormalize (walletAddress (job_data job))) = Some normalizedWallet ->
  normalizedWallet <> "" ->
  type (validateAndNormalize (walletAddress (job_data job))) = Some walletType_ ->
  get routing_table (job_name job) = Some specific ->
  cache_hit false m = Some state ->
  achievementIdsByName (service m) !! ACHIEVEMENT_WUZZY_SEARCHER = Some genericId ->
  genericId <> "" ->
  achievementIdsByName (service m) !! specific = Some specificId ->
  specificId <> "" ->
  award_record state normalizedWallet genericId = Some held ->
  award_record state normalizedWallet specificId = Some held' ->
  process validateAndNormalize awardAchievement job m =
    (Normal (result_record job normalizedWallet walletType_ m), m, []).
Proof.
  intros Hvalid Hnorm Hne Htype Hroute Hhit Hgen Hgne Hspec Hsne Hheld Hheld'.
  rewrite process_run. cbv zeta.
  apply String.eqb_neq in Hne. rewrite Hvalid, Hnorm, Htype, Hne, Hroute. unfold bind.
  rewrite (awardAchievement_held _ _ _ _ _ _ Hhit Hgen Hgne Hheld).
  rewrite (awardAchievement_held _ _ _ _ _ _ Hhit Hspec Hsne Hheld').
  reflexivity.
Qed.

End ProcessorFacts.

(** * The further properties on concrete runs *)

(** A timeout of 1500 ms counts as a server error. *)
Lemma retryable_iff_message_contains_500_witness :
  retryable (new_Error "timeout of 1500ms exceeded") = true.
Proof.
  apply (proj2 (retryable_iff_message_contains_500
                  (new_Error "timeout of 1500ms exceeded"))).
  exists "timeout of 1", "ms exceeded". reflexivity.
Defined.


(** The message is accepted, its result is lost once: it goes out twice. *)
Lemma send_retry_retransmits_witness :
  exists rest,
    transmissions
      (snd (sendAosMessage (P := scripted) award_options 3
              (machine result_lost ready_service))) =
      award_options :: award_options :: rest /\
    In (AoMessage award_options (inr "msg-1"))
       (snd (sendAosMessage (P := scripted) award_options 3
               (machine result_lost ready_service))).
Proof.
  destruct (send_retry_retransmits (P := scripted) award_options 3
              (machine result_lost ready_service)) as (_ & Hagain).
  apply (Hagain "msg-1"
           (script [] [inr "msg-2"] [inl server_error; inr tt] 1000)
           server_error
           (script [] [inr "msg-2"] [inr tt] 1000)
           (fst (fst (sendAosMessage (P := scripted) award_options 3
                        (machine result_lost ready_service))))
           (snd (fst (sendAosMessage (P := scripted) award_options 3
                        (machine result_lost ready_service))))).
  - reflexivity.
  - reflexivity.
  - vm_compute. reflexivity.
  - lia.
  - vm_compute. reflexivity.
Defined.

(** The third attempt of a flaky send resolves. *)
Lemma send_result_matches_message_witness :
  exists pre,
    snd (sendAosMessage (P := scripted) award_options 3 (machine flaky_send ready_service)) =
    pre ++ [AoMessage award_options (inr "msg-2");
            AoResult "msg-2" "cheese-mints" (inr (message_result second_response))].
Proof.
  apply (send_result_matches_message (P := scripted) award_options 3
           (machine flaky_send ready_service)
           (snd (fst (sendAosMessage (P := scripted) award_options 3
                        (machine flaky_send ready_service))))
           second_response).
  vm_compute. reflexivity.
Defined.

(** A first award. *)
Lemma award_sends_only_after_a_clean_read_witness :
  (List.length
     (message_calls
        (snd (awardAchievement (P := scripted) ACHIEVEMENT_WUZZY_SEARCHER wallet_A
                (machine awarding ready_service)))) <= 1)%nat /\
  (List.length
     (dry_run_calls
        (snd (awardAchievement (P := scripted) ACHIEVEMENT_WUZZY_SEARCHER wallet_A
                (machine awarding ready_service)))) <= 1)%nat.
Proof.
  destruct (award_sends_only_after_a_clean_read (P := scripted)
              ACHIEVEMENT_WUZZY_SEARCHER wallet_A (machine awarding ready_service)
              (snd (fst (awardAchievement (P := scripted) ACHIEVEMENT_WUZZY_SEARCHER wallet_A
                           (machine awarding ready_service))))
              (fst (fst (awardAchievement (P := scripted) ACHIEVEMENT_WUZZY_SEARCHER wallet_A
                           (machine awarding ready_service))))
              (snd (awardAchievement (P := scripted) ACHIEVEMENT_WUZZY_SEARCHER wallet_A
                      (machine awarding ready_service))))
    as (_ & _ & Hsends & Hreads & _).
  - vm_compute. reflexivity.
  - split; [exact Hsends|exact Hreads].
Defined.

(** A name that is not in the catalog. *)
Lemma unresolved_name_is_noop_witness :
  awardAchievement (P := scripted) "Wuzzy Text Searcher" wallet_A
    (machine awarding ready_service) =
    (Normal tt, machine awarding ready_service, []).
Proof.
  apply (unresolved_name_is_noop (P := scripted) "Wuzzy Text Searcher" wallet_A
           (machine awarding ready_service)).
  left. vm_compute. reflexivity.
Defined.

(** The ledger answers the state query with server errors only. *)
Lemma award_read_failure_sends_nothing_witness :
  awardAchievement (P := scripted) ACHIEVEMENT_WUZZY_SEARCHER wallet_A
    (machine failing ready_service) =
    (Throw server_error,
     machine (script [] [] [] 15000) ready_service,
     [DryRunCalled query; AoDryRun query (inl server_error); Slept 2000;
      AoDryRun query (inl server_error); Slept 4000;
      AoDryRun query (inl server_error); Slept 8000]).
Proof.
  destruct (award_read_failure_sends_nothing (P := scripted) ACHIEVEMENT_WUZZY_SEARCHER
              wallet_A "cm-1" (machine failing ready_service) eq_refl ltac:(discriminate))
    as (Hfail & _).
  apply Hfail. vm_compute. reflexivity.
Defined.

(** After a first award the next one asks the ledger again. *)
Lemma award_success_forces_next_read_witness :
  dry_run_calls
    (snd (awardAchievement (P := scripted) ACHIEVEMENT_WUZZY_ARNS_SEARCHER wallet_A
            (snd (fst (awardAchievement (P := scripted) ACHIEVEMENT_WUZZY_SEARCHER wallet_A
                         (machine awarding ready_service)))))) = [query].
Proof.
  destruct (award_success_forces_next_read (P := scripted) ACHIEVEMENT_WUZZY_SEARCHER
              wallet_A (machine awarding ready_service)
              (snd (fst (awardAchievement (P := scripted) ACHIEVEMENT_WUZZY_SEARCHER wallet_A
                           (machine awarding ready_service))))
              (snd (awardAchievement (P := scripted) ACHIEVEMENT_WUZZY_SEARCHER wallet_A
                      (machine awarding ready_service))))
    as (_ & _ & Hnext).
  - vm_compute. reflexivity.
  - vm_compute. discriminate.
  - apply (Hnext ACHIEVEMENT_WUZZY_ARNS_SEARCHER wallet_A "cm-4"
             (snd (fst (awardAchievement (P := scripted) ACHIEVEMENT_WUZZY_SEARCHER wallet_A
                          (machine awarding ready_service))))
             (fst (fst (awardAchievement (P := scripted) ACHIEVEMENT_WUZZY_ARNS_SEARCHER
                          wallet_A
                          (snd (fst (awardAchievement (P := scripted)
                                       ACHIEVEMENT_WUZZY_SEARCHER wallet_A
                                       (machine awarding ready_service)))))))
             (snd (fst (awardAchievement (P := scripted) ACHIEVEMENT_WUZZY_ARNS_SEARCHER
                          wallet_A
                          (snd (fst (awardAchievement (P := scripted)
                                       ACHIEVEMENT_WUZZY_SEARCHER wallet_A
                                       (machine awarding ready_service)))))))).
    + reflexivity.
    + vm_compute. reflexivity.
    + discriminate.
    + vm_compute. reflexivity.
Defined.

(** A forced refresh on a started instance. *)
Lemma forced_refresh_bypasses_cache_witness :
  dry_run_calls (snd (getProcessState (P := scripted) true started)) = [query] /\
  service (snd (fst (getProcessState (P := scripted) true started))) =
    set_stateCache (P := scripted) (Some state_after) 1000 (service started).
Proof.
  destruct (forced_refresh_bypasses_cache (P := scripted) started
              (snd (fst (getProcessState (P := scripted) true started)))
              (Normal state_after)
              (snd (getProcessState (P := scripted) true started)))
    as (Hcalls & _ & _ & Hstate & _).
  - vm_compute. reflexivity.
  - split; [exact Hcalls|]. exact (proj1 (Hstate state_after eq_refl)).
Defined.

(** A cache that is exactly as old as the TTL is not served. *)
Lemma cache_served_iff_fresh_witness :
  dry_run_calls
    (snd (getProcessState (P := scripted) false
            (machine (script [answer "after"] [] [] 301000) (service started)))) =
    [query].
Proof.
  destruct (cache_served_iff_fresh (P := scripted) false
              (machine (script [answer "after"] [] [] 301000) (service started))
              (snd (fst (getProcessState (P := scripted) false
                           (machine (script [answer "after"] [] [] 301000)
                              (service started)))))
              (fst (fst (getProcessState (P := scripted) false
                           (machine (script [answer "after"] [] [] 301000)
                              (service started)))))
              (snd (getProcessState (P := scripted) false
                      (machine (script [answer "after"] [] [] 301000) (service started)))))
    as (_ & _ & Hstale).
  - vm_compute. reflexivity.
  - apply Hstale. intros (_ & cached & ttl & _ & Httl & Hage).
    vm_compute in Httl. injection Httl as <-. vm_compute in Hage. discriminate.
Defined.


(** Two achievements of one name: the later id is the one indexed. *)
Lemma index_by_name_last_wins_witness :
  index_by_name ∅ homonyms !! ACHIEVEMENT_WUZZY_SEARCHER = Some "cm-9".
Proof.
  destruct (index_by_name_last_wins ∅ homonyms ACHIEVEMENT_WUZZY_SEARCHER) as (Hlast & _).
  apply (Hlast [ mint "cm-1" ACHIEVEMENT_WUZZY_SEARCHER ] "cm-9"
           (snd (mint "cm-9" ACHIEVEMENT_WUZZY_SEARCHER)) []).
  - reflexivity.
  - reflexivity.
  - constructor.
Defined.

(** The catalog of the test snapshot. *)
Lemma load_only_adds_names_witness :
  exists id_,
    achievementIdsByName
      (service (snd (fst (loadAchievementIds (P := scripted) state_before
                            (machine awarding fresh_service))))) !!
      ACHIEVEMENT_WUZZY_ARNS_SEARCHER = Some id_ /\
    getAchievementId (P := scripted) ACHIEVEMENT_WUZZY_ARNS_SEARCHER
      (snd (fst (loadAchievementIds (P := scripted) state_before
                   (machine awarding fresh_service)))) =
      (Normal (if String.eqb id_ "" then None else Some id_),
       snd (fst (loadAchievementIds (P := scripted) state_before
                   (machine awarding fresh_service))), []).
Proof.
  destruct (load_only_adds_names (P := scripted) state_before
              (machine awarding fresh_service)
              (snd (fst (loadAchievementIds (P := scripted) state_before
                           (machine awarding fresh_service))))
              (Normal tt) [])
    as (_ & _ & _ & _ & _ & _ & _ & Hresolved).
  - vm_compute. reflexivity.
  - apply (Hresolved eq_refl). vm_compute. tauto.
Defined.


(** A job of a type the processor does not know. *)
Lemma unknown_job_type_throws_witness :
  process knows_wallet_A (awardAchievement (P := scripted)) text_job
    (machine awarding ready_service) =
    (Throw (new_Error "Unknown job type: text-search"), machine awarding ready_service, []).
Proof.
  apply (unknown_job_type_throws (P := scripted) knows_wallet_A awardAchievement text_job
           wallet_A Arweave (machine awarding ready_service));
    [reflexivity|reflexivity|discriminate|reflexivity|reflexivity].
Defined.

(** A validator that normalizes nothing. *)
Lemma valid_without_normalized_data_throws_witness :
  process careless (awardAchievement (P := scripted)) (arns_job wallet_A)
    (machine awarding ready_service) =
    (Throw (new_Error "Validation succeeded but missing normalized data"),
     machine awarding ready_service, []).
Proof.
  apply (valid_without_normalized_data_throws (P := scripted) careless awardAchievement
           (arns_job wallet_A) (machine awarding ready_service)).
  - reflexivity.
  - left. reflexivity.
Defined.

(** An arns-search job with the test double. *)
Lemma process_awards_none_or_both_witness :
  snd (fst (process knows_wallet_A (mockAchievementsService (P := scripted))
              (arns_job wallet_A) (machine awarding ready_service))) =
  machine awarding ready_service.
Proof.
  apply (process_awards_none_or_both (P := scripted) knows_wallet_A (arns_job wallet_A)
           (machine awarding ready_service)
           (snd (fst (process knows_wallet_A (mockAchievementsService (P := scripted))
                        (arns_job wallet_A) (machine awarding ready_service))))
           (fst (fst (process knows_wallet_A (mockAchievementsService (P := scripted))
                        (arns_job wallet_A) (machine awarding ready_service))))
           (snd (process knows_wallet_A (mockAchievementsService (P := scripted))
                   (arns_job wallet_A) (machine awarding ready_service)))).
  vm_compute. reflexivity.
Defined.

(** An arns-search job with the service. *)
Lemma live_job_traffic_bounded_witness :
  (List.length
     (message_calls
        (snd (process knows_wallet_A (awardAchievement (P := scripted)) (arns_job wallet_A)
                (machine awarding ready_service)))) <= 2)%nat.
Proof.
  destruct (live_job_traffic_bounded (P := scripted) knows_wallet_A (arns_job wallet_A)
              (machine awarding ready_service)
              (snd (fst (process knows_wallet_A (awardAchievement (P := scripted))
                           (arns_job wallet_A) (machine awarding ready_service))))
              (fst (fst (process knows_wallet_A (awardAchievement (P := scripted))
                           (arns_job wallet_A) (machine awarding ready_service))))
              (snd (process knows_wallet_A (awardAchievement (P := scripted))
                      (arns_job wallet_A) (machine awarding ready_service))))
    as (_ & _ & _ & Hsends & _).
  - vm_compute. reflexivity.
  - exact Hsends.
Defined.

(** The same job again, for a wallet that holds both achievements. *)
Lemma repeated_job_is_silent_witness :
  process knows_wallet_A (awardAchievement (P := scripted)) (arns_job wallet_A)
    (machine (script [] [] [] 2000)
       (set_stateCache (P := scripted) (Some state_both) 1000 ready_service)) =
    (Normal {| success := true; res_eventType := "arns-search"; wallet := wallet_A;
               walletType := Arweave; processedAt := "2026-01-01T00:00:00.000Z";
               res_metadata := None |},
     machine (script [] [] [] 2000)
       (set_stateCache (P := scripted) (Some state_both) 1000 ready_service),
     []).
Proof.
  apply (repeated_job_is_silent (P := scripted) knows_wallet_A (arns_job wallet_A)
           wallet_A Arweave ACHIEVEMENT_WUZZY_ARNS_SEARCHER "cm-1" "cm-4" state_both
           {| awarded_by := service_wallet; awarded_at := 2; message_id := "msg-1" |}
           {| awarded_by := service_wallet; awarded_at := 3; message_id := "msg-2" |}
           (machine (script [] [] [] 2000)
              (set_stateCache (P := scripted) (Some state_both) 1000 ready_service)));
    [reflexivity|reflexivity|discriminate|reflexivity|reflexivity|reflexivity
    |reflexivity|discriminate|reflexivity|discriminate|reflexivity|reflexivity].
Defined.

